(** * StaticMap: the React component of src/components/static-map.js

    A shallow embedding of the [StaticMap] class.  The component is a thin
    adapter between React's lifecycle and an imperative Mapbox engine, so the
    embedding is an exception/state monad over the component instance
    ([this]) and an observable world: the trace of calls issued to the
    engine, the console, and the caller's callbacks.

    The modules the file imports from the rest of the repository
    (../mapbox/mapbox, ../utils/mapboxgl, ../utils/style-utils,
    ../utils/map-constraints, ../utils/map-state) are not part of the
    sources at hand: the pure ones are parameters ([Externals]), the adapter
    class is a trace of the calls it receives.  React itself is the caller:
    its protocol is written out in [react_mount], [react_update],
    [react_deliver] and [react_unmount].  A run of operations ([run]) lets
    any method be called in any order; a run of events ([react_run]) is what
    React and the engine really dispatch to one instance.
    [getChildContext], which only builds a [WebMercatorViewport], is left
    out. *)

From Stdlib Require Import List String ZArith Bool Lia.
Import ListNotations.
Open Scope string_scope.
Open Scope list_scope.
Set Warnings "-register-all".

(** ** JavaScript values *)

(** The fragment of JavaScript values the component inspects.  Numbers are
    integers: the file performs no arithmetic, only [===], [!==] and
    truthiness tests.  Objects carry the address that [===] compares. *)
Inductive JSVal : Type :=
| JUndefined
| JNull
| JBool (b : bool)
| JNum (n : Z)
| JStr (s : string)
| JObj (addr : nat) (fields : list (string * JSVal)).

(** An object literal built by the component itself (its identity is never
    compared): the properties in insertion order. *)
Definition JSObject := list (string * JSVal).

(** ToBoolean. *)
Definition truthy (v : JSVal) : bool :=
  match v with
  | JUndefined | JNull => false
  | JBool b => b
  | JNum n => negb (n =? 0)%Z
  | JStr s => negb (s =? "")
  | JObj _ _ => true
  end.

(** [a === b]: primitives by value, objects by identity. *)
Definition strict_eq (a b : JSVal) : bool :=
  match a, b with
  | JUndefined, JUndefined => true
  | JNull, JNull => true
  | JBool x, JBool y => Bool.eqb x y
  | JNum x, JNum y => (x =? y)%Z
  | JStr x, JStr y => (x =? y)
  | JObj x _, JObj y _ => (x =? y)%nat
  | _, _ => false
  end.

(** [a !== b]. *)
Definition strict_neq (a b : JSVal) : bool := negb (strict_eq a b).

(** [a && b] and [a || b] return one of their operands. *)
Definition js_and (a b : JSVal) : JSVal := if truthy a then b else a.
Definition js_or (a b : JSVal) : JSVal := if truthy a then a else b.

Fixpoint obj_get (o : JSObject) (k : string) : JSVal :=
  match o with
  | [] => JUndefined
  | (k', v) :: rest => if k' =? k then v else obj_get rest k
  end.

(** [o[k] = v] on an object literal: an existing key keeps its position. *)
Fixpoint obj_set (o : JSObject) (k : string) (v : JSVal) : JSObject :=
  match o with
  | [] => [(k, v)]
  | (k', v') :: rest =>
      if k' =? k then (k, v) :: rest else (k', v') :: obj_set rest k v
  end.

(** [Object.assign(target, source)] for object literals. *)
Definition obj_assign (target source : JSObject) : JSObject :=
  fold_left (fun acc kv => obj_set acc (fst kv) (snd kv)) source target.

(** [v.k] for a value [v] that is neither [undefined] nor [null] (the only
    use, [evt.error.status], is guarded by [evt.error &&]).  A primitive has
    no own property, and no built-in prototype defines [status]. *)
Definition get_prop (v : JSVal) (k : string) : JSVal :=
  match v with
  | JObj _ fields => obj_get fields k
  | _ => JUndefined
  end.

(** ** React elements *)

(** Functions the component hands to React or to the engine. *)
Inductive Handler : Type :=
| H_mapboxMapLoaded
| H_mapboxMapError
| H_onResize
| H_noop.

Inductive ElementType : Type :=
| HostTag (name : string)
| AutoSizer.

Inductive AttrVal : Type :=
| AVal (v : JSVal)
| AObj (o : JSObject)
| AFun (h : Handler).

(** The result of [createElement(type, props, children)]; [ENull] is the
    [null] child and [EText] a string child. *)
Inductive Element : Type :=
| ENull
| EText (s : string)
| ENode (type : ElementType) (attrs : list (string * AttrVal))
        (children : list Element).

(** ** Props, state and the instance *)

Record Props : Type := mkProps {
  mapStyle : JSVal;
  preventStyleDiffing : JSVal;
  disableTokenWarning : JSVal;
  visible : JSVal;
  width : JSVal;
  height : JSVal;
  (** the [style] object; empty when the prop is absent *)
  style : JSObject;
  className : JSVal;
  visibilityConstraints : JSVal;
  viewState : JSVal;
  longitude : JSVal;
  latitude : JSVal;
  zoom : JSVal;
  bearing : JSVal;
  pitch : JSVal;
  onViewportChange : JSVal;
  children : list Element;
  (** every other prop, passed through to the engine adapter untouched *)
  otherProps : JSObject
}.

(** [this.state]; the sizes are the integers AutoSizer measures. *)
Record State : Type := mkState {
  st_width : Z;
  st_height : Z;
  accessTokenInvalid : bool
}.

(** A field holding an object reference. *)
Inductive Slot (A : Type) : Type :=
| Undefined
| Null
| Ref (a : A).
Arguments Undefined {A}.
Arguments Null {A}.
Arguments Ref {A} a.

(** The adapter created by [new Mapbox(...)] and the engine map it owns. *)
Inductive MapboxRef : Type := MapboxObj (id : nat).
Inductive MapRef : Type := MapObj (id : nat).

(** A lifecycle method is the prototype's, or the own property [noop] the
    constructor assigns. *)
Inductive HookImpl : Type := Proto | Noop.

Record Instance : Type := mkInstance {
  props : Props;
  state : State;
  _queryParams : JSObject;
  _mapbox : Slot MapboxRef;
  _map : Slot MapRef;
  _mapboxMap : JSVal;
  own_componentDidMount : HookImpl;
  own_componentWillReceiveProps : HookImpl;
  own_componentDidUpdate : HookImpl;
  own_componentWillUnmount : HookImpl
}.

(** ** The world outside the component *)

(** The [mapboxgl] module of ../utils/mapboxgl: absent ([None]) outside a
    browser, otherwise it answers [supported()]. *)
Record Env : Type := mkEnv {
  mapboxgl : option bool
}.

(** The argument of [new Mapbox(Object.assign({}, this.props, {...}))]. *)
Record MapboxConfig : Type := mkConfig {
  cfg_props : Props;
  cfg_mapboxgl : option bool;
  cfg_container : JSVal;
  cfg_onError : Handler;
  cfg_mapStyle : JSVal
}.

(** The [options = {}] parameter of [queryRenderedFeatures]. *)
Inductive QueryOptions : Type :=
| DefaultOptions
| GivenOptions (v : JSVal).

(** Calls received by the engine adapter ([Mapbox*]) and by the engine map
    ([Map*]). *)
Inductive EngineCall : Type :=
| MapboxNew (h : MapboxRef) (cfg : MapboxConfig)
| MapboxSetProps (h : MapboxRef) (p : Props)
| MapboxFinalize (h : MapboxRef)
| MapSetStyle (m : MapRef) (normalized : JSVal) (diff : bool)
| MapResize (m : MapRef)
| MapQueryRenderedFeatures (m : MapRef) (geometry : JSVal)
                           (options : QueryOptions).

(** [this.props.onViewportChange(newViewState, {}, oldViewState)]. *)
Inductive CallbackEvent : Type :=
| ViewportChange (newViewState oldViewState : JSVal).

Record World : Type := mkWorld {
  engine : list EngineCall;
  console : list string;
  callbacks : list CallbackEvent;
  next_id : nat
}.

(** [TypeError]: a property read on [undefined] or [null]; [Thrown]:
    anything an imported module throws. *)
Inductive Exn : Type :=
| TypeError (property : string)
| Thrown (v : JSVal).

(** ** The monad of method bodies *)

(** A method body reads and writes [this] and the world, and either returns
    or throws; the instance and world at the throw are kept, since the
    writes made before it persist. *)
Inductive Outcome (A : Type) : Type :=
| Ok (a : A) (i : Instance) (w : World)
| Throw (e : Exn) (i : Instance) (w : World).
Arguments Ok {A} a i w.
Arguments Throw {A} e i w.

Definition M (A : Type) : Type := Instance -> World -> Outcome A.

Definition ret {A} (a : A) : M A := fun i w => Ok a i w.

Definition bind {A B} (m : M A) (k : A -> M B) : M B :=
  fun i w =>
    match m i w with
    | Ok a i' w' => k a i' w'
    | Throw e i' w' => Throw e i' w'
    end.

Definition throw {A} (e : Exn) : M A := fun i w => Throw e i w.

Declare Scope js_scope.
Delimit Scope js_scope with js.
Notation "x <- m ;; k" := (bind m (fun x => k))
  (at level 61, m at next level, right associativity) : js_scope.
Notation "m ;; k" := (bind m (fun _ => k))
  (at level 61, right associativity) : js_scope.
Open Scope js_scope.

Definition this : M Instance := fun i w => Ok i i w.

Definition inst_of {A} (o : Outcome A) : Instance :=
  match o with Ok _ i _ | Throw _ i _ => i end.

Definition world_of {A} (o : Outcome A) : World :=
  match o with Ok _ _ w | Throw _ _ w => w end.

Definition returned {A} (o : Outcome A) : bool :=
  match o with Ok _ _ _ => true | Throw _ _ _ => false end.

(** ** Primitive effects *)

Definition set_state (s : State) : M unit :=
  fun i w =>
    Ok tt (mkInstance (props i) s (_queryParams i) (_mapbox i) (_map i)
             (_mapboxMap i) (own_componentDidMount i)
             (own_componentWillReceiveProps i) (own_componentDidUpdate i)
             (own_componentWillUnmount i)) w.

Definition set_props (p : Props) : M unit :=
  fun i w =>
    Ok tt (mkInstance p (state i) (_queryParams i) (_mapbox i) (_map i)
             (_mapboxMap i) (own_componentDidMount i)
             (own_componentWillReceiveProps i) (own_componentDidUpdate i)
             (own_componentWillUnmount i)) w.

(** [this._mapbox = v], [this._map = v], [this._mapboxMap = v]. *)
Definition set_mapbox (v : Slot MapboxRef) : M unit :=
  fun i w =>
    Ok tt (mkInstance (props i) (state i) (_queryParams i) v (_map i)
             (_mapboxMap i) (own_componentDidMount i)
             (own_componentWillReceiveProps i) (own_componentDidUpdate i)
             (own_componentWillUnmount i)) w.

Definition set_map (v : Slot MapRef) : M unit :=
  fun i w =>
    Ok tt (mkInstance (props i) (state i) (_queryParams i) (_mapbox i) v
             (_mapboxMap i) (own_componentDidMount i)
             (own_componentWillReceiveProps i) (own_componentDidUpdate i)
             (own_componentWillUnmount i)) w.

Definition set_mapboxMap (v : JSVal) : M unit :=
  fun i w =>
    Ok tt (mkInstance (props i) (state i) (_queryParams i) (_mapbox i)
             (_map i) v (own_componentDidMount i)
             (own_componentWillReceiveProps i) (own_componentDidUpdate i)
             (own_componentWillUnmount i)) w.

(** The partial state handed to [this.setState]. *)
Record StateUpdate : Type := mkUpdate {
  upd_width : option Z;
  upd_height : option Z;
  upd_accessTokenInvalid : option bool
}.

Definition merge_state (s : State) (u : StateUpdate) : State :=
  mkState
    (match upd_width u with Some v => v | None => st_width s end)
    (match upd_height u with Some v => v | None => st_height s end)
    (match upd_accessTokenInvalid u with
     | Some v => v
     | None => accessTokenInvalid s
     end).

(** [this.setState(u)] as the method body sees it: the write of an update
    that React accepts.  What React does around that write is not the
    component's code and is written out in [react_deliver] and
    [react_mount]: the update of an instance that is not mounted is dropped,
    and after an accepted update React renders again and runs
    [componentDidUpdate] with the previous state, inside the call when no
    batch is open.  Both callers end with their [setState], so nothing of
    the method body runs after it. *)
Definition setState (u : StateUpdate) : M unit :=
  i <- this;; set_state (merge_state (state i) u).

(** A method call [o.method(...)] through a field [o]: a [TypeError] naming
    the method when the field holds [undefined] or [null]. *)
Definition deref {A} (method : string) (s : Slot A) : M A :=
  match s with
  | Ref a => ret a
  | Undefined | Null => throw (TypeError method)
  end.

Definition emit (c : EngineCall) : M unit :=
  fun i w =>
    Ok tt i (mkWorld (engine w ++ [c]) (console w) (callbacks w) (next_id w)).

Definition console_error (line : string) : M unit :=
  fun i w =>
    Ok tt i (mkWorld (engine w) (console w ++ [line]) (callbacks w) (next_id w)).

(** The caller's callback has been entered with these arguments. *)
Definition record_callback (e : CallbackEvent) : M unit :=
  fun i w =>
    Ok tt i (mkWorld (engine w) (console w) (callbacks w ++ [e]) (next_id w)).

(** ** The engine adapter *)

(** Modelled from the spec: the [Mapbox] class of ../mapbox/mapbox is not
    part of the sources.  Per section 4.1, [initialize] constructs the engine
    and reports failures through the error callback rather than throwing;
    [reconfigure] and [finalize] are calls on the live adapter;
    [getUnderlyingHandle] returns the raw engine handle. *)
Definition Mapbox_new (cfg : MapboxConfig) : M MapboxRef :=
  fun i w =>
    let h := MapboxObj (next_id w) in
    Ok h i (mkWorld (engine w ++ [MapboxNew h cfg]) (console w) (callbacks w)
              (S (next_id w))).

Definition Mapbox_getMap (h : MapboxRef) : MapRef :=
  match h with MapboxObj id => MapObj id end.

Definition Mapbox_setProps (h : MapboxRef) (p : Props) : M unit :=
  emit (MapboxSetProps h p).

Definition Mapbox_finalize (h : MapboxRef) : M unit :=
  emit (MapboxFinalize h).

(** ** Constants *)

Definition TOKEN_DOC_URL : string :=
  "https://uber.github.io/react-map-gl/#/Documentation/getting-started/about-mapbox-tokens".
Definition NO_TOKEN_WARNING : string :=
  "A valid API access token is required to use Mapbox data".

Definition noop : M unit := ret tt.

Definition UNAUTHORIZED_ERROR_CODE : Z := 401.

Definition OVERLAY_CONTAINER_STYLE : JSObject :=
  [("position", JStr "absolute"); ("left", JNum 0); ("top", JNum 0);
   ("right", JNum 0); ("bottom", JNum 0); ("overflow", JStr "hidden")].

(** The three defaults this file adds to [Mapbox.defaultProps]; React
    substitutes a default for a prop that is [undefined]. *)
Definition defaultProps (p : Props) : Props :=
  mkProps
    (match mapStyle p with
     | JUndefined => JStr "mapbox://styles/mapbox/light-v8"
     | v => v
     end)
    (match preventStyleDiffing p with JUndefined => JBool false | v => v end)
    (disableTokenWarning p)
    (match visible p with JUndefined => JBool true | v => v end)
    (width p) (height p) (style p) (className p) (visibilityConstraints p)
    (viewState p) (longitude p) (latitude p) (zoom p) (bearing p) (pitch p)
    (onViewportChange p) (children p) (otherProps p).

(** The event the engine passes to [onError]. *)
Record ErrorEvent : Type := mkErrorEvent {
  evt_error : JSVal;
  evt_status : JSVal
}.

(** The first argument of [checkVisibilityConstraints]: the [viewState]
    object, or the props object itself. *)
Inductive ViewSource : Type :=
| FromViewState (v : JSVal)
| FromProps (p : Props).

(** ** The component *)

(** The modules this file imports that are not part of the sources, and the
    engine's answers. *)
(** What calling the value of a callback prop does: a function returns or
    throws, anything else cannot be called. *)
Inductive CallResult : Type :=
| Returned
| Raised (e : Exn)
| NotCallable.

Record Externals : Type := mkExternals {
  (** the [mapboxgl] import *)
  ext_env : Env;
  (** [normalizeStyle] of ../utils/style-utils *)
  ext_normalizeStyle : JSVal -> JSVal;
  (** [checkVisibilityConstraints] of ../utils/map-constraints *)
  ext_checkVisibilityConstraints : ViewSource -> JSVal -> JSVal;
  (** [new MapState(Object.assign({}, props, {width, height}))
      .getViewportProps()] of ../utils/map-state; it may throw *)
  ext_getViewportProps : Props -> Z -> Z -> Exn + JSVal;
  (** the caller's code behind the [onViewportChange] prop: what the call
      [f(newViewState, {}, oldViewState)] does for the prop's value [f] *)
  ext_onViewportChange : JSVal -> JSVal -> JSVal -> CallResult;
  (** what the engine answers to [queryRenderedFeatures] *)
  ext_engine_features : MapRef -> JSVal -> QueryOptions -> JSVal
}.

(** Every method that can be called on an instance, and React storing new
    props.  A handler here is the bare method call, its [setState] taken as
    an accepted write; the events as React delivers them are [Event]. *)
Inductive Op : Type :=
| CallComponentDidMount
| CallComponentWillReceiveProps (newProps : Props)
| StoreProps (newProps : Props)
| CallComponentDidUpdate (prevProps : Props) (prevState : State)
| CallComponentWillUnmount
| CallRender
| CallGetMap
| CallQueryRenderedFeatures (geometry options : JSVal)
| CallOnResize (width height : Z)
| CallMapboxMapLoaded (ref : JSVal)
| CallMapboxMapError (evt : ErrorEvent).

(** The result of a run: the exceptions raised, in order, and the final
    instance and world. *)
Record Trace : Type := mkTrace {
  raised : list Exn;
  final_inst : Instance;
  final_world : World
}.

Section StaticMap.

Variable X : Externals.
Local Abbreviation env := (ext_env X).
Local Abbreviation normalizeStyle := (ext_normalizeStyle X).
Local Abbreviation checkVisibilityConstraints :=
  (ext_checkVisibilityConstraints X).
Local Abbreviation getViewportProps := (ext_getViewportProps X).
Local Abbreviation onViewportChange_call := (ext_onViewportChange X).
Local Abbreviation engine_features := (ext_engine_features X).

(** [static supported()]: [mapboxgl && mapboxgl.supported()], as a
    condition. *)
Definition supported : bool :=
  match mapboxgl env with
  | None => false
  | Some s => s
  end.

Definition constructor (p : Props) : Instance :=
  let hook := if negb supported then Noop else Proto in
  mkInstance p (mkState 0 0 false) [] Undefined Undefined JUndefined
             hook hook hook hook.

Definition componentDidMount : M unit :=
  i <- this;;
  let mapStyle := mapStyle (props i) in
  mb <- Mapbox_new (mkConfig (props i) (mapboxgl env) (_mapboxMap i)
                      H_mapboxMapError (normalizeStyle mapStyle));;
  set_mapbox (Ref mb);;
  i <- this;;
  mb <- deref "getMap" (_mapbox i);;
  set_map (Ref (Mapbox_getMap mb)).

(** Called with [(prevState, this.state)]: the parameters the source
    names [oldProps] and [newProps] are states here. *)
Definition _updateMapSize (oldProps newProps : State) : M unit :=
  let sizeChanged :=
    negb (st_width oldProps =? st_width newProps)%Z
    || negb (st_height oldProps =? st_height newProps)%Z in
  if sizeChanged then
    i <- this;;
    m <- deref "resize" (_map i);;
    emit (MapResize m)
  else ret tt.

Definition _updateMapStyle (oldProps newProps : Props) : M unit :=
  let oldMapStyle := mapStyle oldProps in
  let mapStyle := mapStyle newProps in
  if strict_neq mapStyle oldMapStyle then
    i <- this;;
    m <- deref "setStyle" (_map i);;
    emit (MapSetStyle m (normalizeStyle mapStyle)
            (negb (truthy (preventStyleDiffing (props i)))))
  else ret tt.

Definition componentWillReceiveProps (newProps : Props) : M unit :=
  i <- this;;
  mb <- deref "setProps" (_mapbox i);;
  Mapbox_setProps mb newProps;;
  i <- this;;
  _updateMapStyle (props i) newProps.

Definition componentDidUpdate (prevProps : Props) (prevState : State)
  : M unit :=
  i <- this;;
  _updateMapSize prevState (state i).

Definition componentWillUnmount : M unit :=
  i <- this;;
  mb <- deref "finalize" (_mapbox i);;
  Mapbox_finalize mb;;
  set_mapbox Null;;
  set_map Null.

Definition getMap : M (Slot MapRef) :=
  i <- this;;
  ret (_map i).

Definition queryRenderedFeatures (geometry options : JSVal) : M JSVal :=
  let options :=
    match options with
    | JUndefined => DefaultOptions
    | v => GivenOptions v
    end in
  i <- this;;
  m <- deref "queryRenderedFeatures" (_map i);;
  emit (MapQueryRenderedFeatures m geometry options);;
  ret (engine_features m geometry options).

Definition new_MapState_getViewportProps (p : Props) (width height : Z)
  : M JSVal :=
  match getViewportProps p width height with
  | inl e => throw e
  | inr v => ret v
  end.

(** [f(newViewState, {}, oldViewState)]: a [TypeError] when [f] is not a
    function, otherwise the caller's code runs and returns or throws. *)
Definition invoke_callback (f newViewState oldViewState : JSVal) : M unit :=
  match onViewportChange_call f newViewState oldViewState with
  | NotCallable => throw (TypeError "onViewportChange")
  | Returned => record_callback (ViewportChange newViewState oldViewState)
  | Raised e =>
      record_callback (ViewportChange newViewState oldViewState);;
      throw e
  end.

Definition _onResize (width height : Z) : M unit :=
  i <- this;;
  (if truthy (onViewportChange (props i)) then
     oldViewState <- new_MapState_getViewportProps (props i)
                       (st_width (state i)) (st_height (state i));;
     newViewState <- new_MapState_getViewportProps (props i) width height;;
     invoke_callback (onViewportChange (props i)) newViewState oldViewState
   else ret tt);;
  setState (mkUpdate (Some width) (Some height) None).

Definition _mapboxMapLoaded (ref : JSVal) : M unit :=
  set_mapboxMap ref.

(** [evt.error && evt.error.status || evt.status]. *)
Definition statusCode (evt : ErrorEvent) : JSVal :=
  js_or (if truthy (evt_error evt)
         then get_prop (evt_error evt) "status"
         else evt_error evt)
        (evt_status evt).

Definition _mapboxMapError (evt : ErrorEvent) : M unit :=
  let statusCode := statusCode evt in
  i <- this;;
  if strict_eq statusCode (JNum UNAUTHORIZED_ERROR_CODE)
     && negb (accessTokenInvalid (state i))
  then
    console_error NO_TOKEN_WARNING;;
    setState (mkUpdate None None (Some true))
  else ret tt.

(** The element [_renderNoTokenWarning] creates. *)
Definition no_token_warning : Element :=
  let style : JSObject :=
    [("position", JStr "absolute"); ("left", JNum 0); ("top", JNum 0)] in
  ENode (HostTag "div")
        [("key", AVal (JStr "warning"));
         ("id", AVal (JStr "no-token-warning"));
         ("style", AObj style)]
        [ENode (HostTag "h3") [("key", AVal (JStr "header"))]
               [EText NO_TOKEN_WARNING];
         ENode (HostTag "div") [("key", AVal (JStr "text"))]
               [EText "For information on setting up your basemap, read"];
         ENode (HostTag "a")
               [("key", AVal (JStr "link"));
                ("href", AVal (JStr TOKEN_DOC_URL))]
               [EText "Note on Map Tokens"]].

Definition _renderNoTokenWarning : M Element :=
  i <- this;;
  if accessTokenInvalid (state i)
     && negb (truthy (disableTokenWarning (props i)))
  then ret no_token_warning
  else ret ENull.

(** [Object.assign({}, style, {width, height})], then the position
    default. *)
Definition mapContainerStyle (p : Props) : JSObject :=
  let s := obj_assign (obj_assign [] (style p))
                      [("width", width p); ("height", height p)] in
  if negb (truthy (obj_get s "position"))
     || strict_eq (obj_get s "position") (JStr "static")
  then obj_set s "position" (JStr "relative")
  else s.

(** [this.props.viewState || this.props]. *)
Definition view_source (p : Props) : ViewSource :=
  if truthy (viewState p) then FromViewState (viewState p) else FromProps p.

(** The [visible] constant of [render]. *)
Definition render_visible (p : Props) : JSVal :=
  js_and (visible p)
         (checkVisibilityConstraints (view_source p)
                                     (visibilityConstraints p)).

(** The [mapStyle] constant of [render]. *)
Definition render_mapStyle (i : Instance) : JSObject :=
  [("width", JNum (st_width (state i)));
   ("height", JNum (st_height (state i)));
   ("visibility",
    JStr (if truthy (render_visible (props i)) then "visible" else "hidden"))].

(** The element with key [map-mapbox]: the mapping surface. *)
Definition map_surface (i : Instance) : Element :=
  ENode (HostTag "div")
        [("key", AVal (JStr "map-mapbox"));
         ("ref", AFun H_mapboxMapLoaded);
         ("style", AObj (render_mapStyle i));
         ("className", AVal (className (props i)))]
        [].

(** The element with key [map-overlays]. *)
Definition overlay_container (p : Props) : Element :=
  ENode (HostTag "div")
        [("key", AVal (JStr "map-overlays"));
         ("className", AVal (JStr "overlays"));
         ("style", AObj OVERLAY_CONTAINER_STYLE)]
        (children p).

Definition autosizer : Element :=
  ENode AutoSizer
        [("key", AVal (JStr "autosizer"));
         ("onResize", AFun H_onResize);
         ("children", AFun H_noop)]
        [].

(** The element with key [map-container]. *)
Definition map_container (p : Props) (children : list Element) : Element :=
  ENode (HostTag "div")
        [("key", AVal (JStr "map-container"));
         ("style", AObj (mapContainerStyle p))]
        children.

Definition render : M Element :=
  i <- this;;
  warning <- _renderNoTokenWarning;;
  ret (map_container (props i)
         [map_surface i; overlay_container (props i); autosizer; warning]).

(** *** Method dispatch *)

(** A lifecycle call goes to the own property when the constructor
    installed one. *)
Definition call_componentDidMount : M unit :=
  i <- this;;
  match own_componentDidMount i with
  | Noop => noop
  | Proto => componentDidMount
  end.

Definition call_componentWillReceiveProps (newProps : Props) : M unit :=
  i <- this;;
  match own_componentWillReceiveProps i with
  | Noop => noop
  | Proto => componentWillReceiveProps newProps
  end.

Definition call_componentDidUpdate (prevProps : Props) (prevState : State)
  : M unit :=
  i <- this;;
  match own_componentDidUpdate i with
  | Noop => noop
  | Proto => componentDidUpdate prevProps prevState
  end.

Definition call_componentWillUnmount : M unit :=
  i <- this;;
  match own_componentWillUnmount i with
  | Noop => noop
  | Proto => componentWillUnmount
  end.

(** *** React's protocol *)

(** [PureComponent] compares the state field by field. *)
Definition state_eqb (a b : State) : bool :=
  (st_width a =? st_width b)%Z
  && (st_height a =? st_height b)%Z
  && Bool.eqb (accessTokenInvalid a) (accessTokenInvalid b).

(** After an accepted [setState] React renders again and runs
    [componentDidUpdate] with the previous state, unless the state is
    unchanged. *)
Definition react_commit_state (before : Instance) : M unit :=
  i <- this;;
  if state_eqb (state before) (state i) then ret tt
  else
    render;;
    call_componentDidUpdate (props i) (state before).

(** Mounting.  The first render; then the commit, children first: the
    [ref] callback with the DOM node, the AutoSizer child's
    [componentDidMount], which reports the size [box] of a container that
    has a layout box (and reports nothing for an empty one), and the
    component's own [componentDidMount].  The [setState] of that report is
    batched: React applies it when the commit is over.  A report that
    throws makes the mount fail at that point; how React goes on after a
    failed commit differs between its versions and is not followed. *)
Definition react_mount (node : JSVal) (box : option (Z * Z)) : M unit :=
  before <- this;;
  render;;
  _mapboxMapLoaded node;;
  match box with
  | Some (width, height) => _onResize width height
  | None => ret tt
  end;;
  call_componentDidMount;;
  react_commit_state before.

(** An update with new props: [componentWillReceiveProps] runs while
    [this.props] still holds the previous props; the props are stored,
    the component renders, and [componentDidUpdate] receives the previous
    props and state. *)
Definition react_update (newProps : Props) : M unit :=
  i <- this;;
  let prevProps := props i in
  let prevState := state i in
  call_componentWillReceiveProps newProps;;
  set_props newProps;;
  render;;
  call_componentDidUpdate prevProps prevState.

(** Unmounting: [componentWillUnmount], then the [ref] callback with
    [null]. *)
Definition react_unmount : M unit :=
  call_componentWillUnmount;;
  _mapboxMapLoaded JNull.

(** A handler called from outside a batch (a size report of the observer,
    an event of the engine).  On a mounted instance the [setState] it ends
    with is applied and committed inside the call; on an instance that is
    not mounted React drops the update, so the state is what it was. *)
Definition react_deliver (is_mounted : bool) (handler : M unit) : M unit :=
  before <- this;;
  handler;;
  if is_mounted then react_commit_state before
  else set_state (state before).

(** Whether the size report [_onResize (width, height)] returns, for props
    [p] and stored state [s]: [MapState] accepts both sizes and the callback
    is a function that returns, or there is no callback. *)
Definition report_returns (p : Props) (s : State) (width height : Z) : bool :=
  if truthy (onViewportChange p) then
    match getViewportProps p (st_width s) (st_height s),
          getViewportProps p width height with
    | inr oldViewState, inr newViewState =>
        match onViewportChange_call (onViewportChange p)
                                    newViewState oldViewState with
        | Returned => true
        | _ => false
        end
    | _, _ => false
    end
  else true.

(** The callback invocations of such a report. *)
Definition reported_change (p : Props) (s : State) (width height : Z)
  : list CallbackEvent :=
  if truthy (onViewportChange p) then
    match getViewportProps p (st_width s) (st_height s),
          getViewportProps p width height with
    | inr oldViewState, inr newViewState =>
        match onViewportChange_call (onViewportChange p)
                                    newViewState oldViewState with
        | NotCallable => []
        | _ => [ViewportChange newViewState oldViewState]
        end
    | _, _ => []
    end
  else [].

Definition discard {A} (m : M A) : M unit := m;; ret tt.

Definition step (op : Op) : M unit :=
  match op with
  | CallComponentDidMount => call_componentDidMount
  | CallComponentWillReceiveProps newProps =>
      call_componentWillReceiveProps newProps
  | StoreProps newProps => set_props newProps
  | CallComponentDidUpdate prevProps prevState =>
      call_componentDidUpdate prevProps prevState
  | CallComponentWillUnmount => call_componentWillUnmount
  | CallRender => discard render
  | CallGetMap => discard getMap
  | CallQueryRenderedFeatures geometry options =>
      discard (queryRenderedFeatures geometry options)
  | CallOnResize width height => _onResize width height
  | CallMapboxMapLoaded ref => _mapboxMapLoaded ref
  | CallMapboxMapError evt => _mapboxMapError evt
  end.

(** A run dispatches the operations one after the other; an exception
    ends the operation that raised it, not the run. *)
Fixpoint run (ops : list Op) (i : Instance) (w : World) : Trace :=
  match ops with
  | [] => mkTrace [] i w
  | op :: rest =>
      match step op i w with
      | Ok _ i' w' => run rest i' w'
      | Throw e i' w' =>
          let t := run rest i' w' in
          mkTrace (e :: raised t) (final_inst t) (final_world t)
      end
  end.

End StaticMap.

(** ** Reading a trace *)

(** The engine calls issued between world [w] and a later world [w']. *)
Definition issued (w w' : World) : list EngineCall :=
  skipn (List.length (engine w)) (engine w').

(** World [w] after the engine received [calls]. *)
Definition extend (w : World) (calls : list EngineCall) : World :=
  mkWorld (engine w ++ calls) (console w) (callbacks w) (next_id w).

Definition is_setStyle (c : EngineCall) : bool :=
  match c with MapSetStyle _ _ _ => true | _ => false end.

(** Every operation except a fresh [componentDidMount]. *)
Definition not_mount (op : Op) : bool :=
  match op with
  | CallComponentDidMount => false
  | _ => true
  end.

(** The operations that do not go through [this._map] or [MapState]: the
    lifecycle, rendering, [getMap], the [ref] callback and error events. *)
Definition lifecycle_or_render (op : Op) : bool :=
  match op with
  | CallQueryRenderedFeatures _ _ | CallOnResize _ _ => false
  | _ => true
  end.

(** What the constructor leaves behind when [supported()] is false. *)
Definition inert (i : Instance) : Prop :=
  own_componentDidMount i = Noop
  /\ own_componentWillReceiveProps i = Noop
  /\ own_componentDidUpdate i = Noop
  /\ own_componentWillUnmount i = Noop
  /\ _mapbox i = Undefined
  /\ _map i = Undefined.

(** The props with the five top-level geographic props replaced. *)
Definition with_geography (p : Props) (lon lat z b pt : JSVal) : Props :=
  mkProps (mapStyle p) (preventStyleDiffing p) (disableTokenWarning p)
          (visible p) (width p) (height p) (style p) (className p)
          (visibilityConstraints p) (viewState p) lon lat z b pt
          (onViewportChange p) (children p) (otherProps p).

(** ** Concrete inputs *)

Definition empty_world : World := mkWorld [] [] [] 0.

(** A toy constraint check: [zoom] against [minZoom]. *)
Definition zoom_check (src : ViewSource) (constraints : JSVal) : JSVal :=
  let z := match src with
           | FromViewState v => get_prop v "zoom"
           | FromProps p => zoom p
           end in
  match z, get_prop constraints "minZoom" with
  | JNum z, JNum lo => JBool (lo <=? z)%Z
  | _, _ => JBool true
  end.

(** Callbacks are function objects; the caller's function returns. *)
Definition call_function (f newViewState oldViewState : JSVal) : CallResult :=
  match f with
  | JObj _ _ => Returned
  | _ => NotCallable
  end.

Definition browser : Externals :=
  mkExternals (mkEnv (Some true)) (fun v => v) zoom_check
              (fun _ w h => inr (JObj 900 [("width", JNum w); ("height", JNum h)]))
              call_function
              (fun _ _ _ => JObj 901 []).

Definition headless : Externals :=
  mkExternals (mkEnv None) (fun v => v) zoom_check
              (fun _ w h => inr (JObj 900 [("width", JNum w); ("height", JNum h)]))
              call_function
              (fun _ _ _ => JObj 901 []).

Definition light_props : Props :=
  mkProps (JStr "mapbox://styles/mapbox/light-v8") (JBool false) JUndefined
          (JBool true) (JNum 400) (JNum 300) [] JUndefined JUndefined
          JUndefined (JNum 10) (JNum 50) (JNum 8) (JNum 0) (JNum 0)
          JUndefined [EText "marker"] [].

(** A new style together with [preventStyleDiffing: true]. *)
Definition dark_props_no_diff : Props :=
  mkProps (JStr "mapbox://styles/mapbox/dark-v8") (JBool true) JUndefined
          (JBool true) (JNum 400) (JNum 300) [] JUndefined JUndefined
          JUndefined (JNum 10) (JNum 50) (JNum 8) (JNum 0) (JNum 0)
          JUndefined [EText "marker"] [].

(** Zoom 8 under a [minZoom: 12] constraint. *)
Definition constrained_props : Props :=
  mkProps (JStr "mapbox://styles/mapbox/light-v8") (JBool false) JUndefined
          (JBool true) (JNum 400) (JNum 300) [] JUndefined
          (JObj 7 [("minZoom", JNum 12)])
          (JObj 8 [("zoom", JNum 8)]) (JNum 10) (JNum 50) (JNum 20)
          (JNum 0) (JNum 0) JUndefined [EText "marker"] [].

Definition dom_node : JSVal := JObj 1 [].

Definition unauthorized : ErrorEvent :=
  mkErrorEvent (JObj 2 [("status", JNum 401)]) JUndefined.

(** A component mounted in a browser, in a container still without a layout
    box. *)
Definition mounted : Outcome unit :=
  react_mount browser dom_node None (constructor browser light_props)
              empty_world.

(** A mounted component whose constraints are not met. *)
Definition mounted_hidden : Outcome unit :=
  react_mount browser dom_node None (constructor browser constrained_props)
              empty_world.

(** The mounted component after a first measurement of 640 by 480. *)
Definition measured : Outcome unit :=
  _onResize browser 640 480 (inst_of mounted) (world_of mounted).

(** The mounted component after a first 401. *)
Definition warned : Outcome unit :=
  _mapboxMapError unauthorized (inst_of mounted) (world_of mounted).

(** A falsy nested status under a top-level 401, and a nested 500 over a
    top-level 401. *)
Definition top_level_401 : ErrorEvent :=
  mkErrorEvent (JObj 3 [("status", JNum 0)]) (JNum 401).
Definition nested_500 : ErrorEvent :=
  mkErrorEvent (JObj 4 [("status", JNum 500)]) (JNum 401).

(** A life in an unsupported environment. *)
Definition headless_life : list Op :=
  [CallRender; CallMapboxMapLoaded dom_node; CallComponentDidMount;
   CallOnResize 640 480; CallRender;
   CallComponentDidUpdate light_props (mkState 0 0 false);
   CallComponentWillReceiveProps dark_props_no_diff;
   StoreProps dark_props_no_diff; CallRender;
   CallQueryRenderedFeatures (JNum 0) JUndefined;
   CallMapboxMapError unauthorized; CallComponentWillUnmount].

(** What may still arrive after unmount. *)
Definition late_arrivals : list Op :=
  [CallMapboxMapLoaded JNull; CallMapboxMapError unauthorized; CallGetMap;
   CallQueryRenderedFeatures (JNum 0) JUndefined; CallOnResize 0 0].

(** The same component after unmount. *)
Definition unmounted : Outcome unit :=
  react_unmount (inst_of mounted) (world_of mounted).

(** ** Reading a rendered element *)

Fixpoint assoc {A} (l : list (string * A)) (k : string) : option A :=
  match l with
  | [] => None
  | (k', v) :: rest => if k' =? k then Some v else assoc rest k
  end.

(** The element a [render] returned; [null] if it threw. *)
Definition rendered (o : Outcome Element) : Element :=
  match o with
  | Ok el _ _ => el
  | Throw _ _ _ => ENull
  end.

Definition tag_of (e : Element) : option ElementType :=
  match e with
  | ENode type _ _ => Some type
  | _ => None
  end.

Definition attr (e : Element) (name : string) : option AttrVal :=
  match e with
  | ENode _ attrs _ => assoc attrs name
  | _ => None
  end.

Definition key_of (e : Element) : option string :=
  match attr e "key" with
  | Some (AVal (JStr k)) => Some k
  | _ => None
  end.

Definition style_of (e : Element) : JSObject :=
  match attr e "style" with
  | Some (AObj o) => o
  | _ => []
  end.

Definition children_of (e : Element) : list Element :=
  match e with
  | ENode _ _ children => children
  | _ => []
  end.

(** The child element carrying key [k], if there is one. *)
Definition child_with_key (e : Element) (k : string) : option Element :=
  find (fun c => match key_of c with
                 | Some k' => k' =? k
                 | None => false
                 end)
       (children_of e).

(** ** React's events *)

(** What React, the size observer, the engine and outside callers dispatch
    to one instance once it is mounted. *)
Inductive Event : Type :=
| PropsUpdate (newProps : Props)
| SizeReport (width height : Z)
| EngineError (evt : ErrorEvent)
| AskMap
| AskFeatures (geometry options : JSVal)
| Unmount.

(** React updates and unmounts only a mounted instance; size reports and
    engine events arrive outside a batch, also after unmount. *)
Definition react_step (X : Externals) (e : Event) (is_mounted : bool)
  : M unit :=
  match e with
  | PropsUpdate newProps =>
      if is_mounted then react_update X newProps else ret tt
  | SizeReport width height =>
      react_deliver X is_mounted (_onResize X width height)
  | EngineError evt => react_deliver X is_mounted (_mapboxMapError evt)
  | AskMap => discard getMap
  | AskFeatures geometry options =>
      discard (queryRenderedFeatures X geometry options)
  | Unmount => if is_mounted then react_unmount else ret tt
  end.

Definition still_mounted (e : Event) (is_mounted : bool) : bool :=
  match e with
  | Unmount => false
  | _ => is_mounted
  end.

(** The events one after the other; as in [run], an exception ends the
    event that raised it. *)
Fixpoint react_run (X : Externals) (events : list Event) (is_mounted : bool)
         (i : Instance) (w : World) : Trace :=
  match events with
  | [] => mkTrace [] i w
  | e :: rest =>
      match react_step X e is_mounted i w with
      | Ok _ i' w' => react_run X rest (still_mounted e is_mounted) i' w'
      | Throw x i' w' =>
          let t := react_run X rest (still_mounted e is_mounted) i' w' in
          mkTrace (x :: raised t) (final_inst t) (final_world t)
      end
  end.

Definition stays_mounted (e : Event) : bool :=
  match e with
  | Unmount => false
  | _ => true
  end.

(** An engine event that carries the unauthorized status. *)
Definition is_unauthorized (e : Event) : bool :=
  match e with
  | EngineError evt =>
      strict_eq (statusCode evt) (JNum UNAUTHORIZED_ERROR_CODE)
  | _ => false
  end.

(** ** Shapes of instances and worlds *)

(** Instance [i] with state [s]. *)
Definition with_state (i : Instance) (s : State) : Instance :=
  mkInstance (props i) s (_queryParams i) (_mapbox i) (_map i)
             (_mapboxMap i) (own_componentDidMount i)
             (own_componentWillReceiveProps i) (own_componentDidUpdate i)
             (own_componentWillUnmount i).

(** World [w] after the caller's callback was entered with [events]. *)
Definition notify (w : World) (events : list CallbackEvent) : World :=
  mkWorld (engine w) (console w) (callbacks w ++ events) (next_id w).

(** The state once the size reported at mount, if any, is stored. *)
Definition measured_state (box : option (Z * Z)) : State :=
  match box with
  | Some (width, height) => mkState width height false
  | None => mkState 0 0 false
  end.

(** The engine is resized once the measured size is committed, unless it is
    the initial 0 by 0. *)
Definition first_resize (box : option (Z * Z)) (m : MapRef)
  : list EngineCall :=
  if state_eqb (mkState 0 0 false) (measured_state box) then []
  else [MapResize m].

(** Whether the size report of the mount returns. *)
Definition mount_report_returns (X : Externals) (p : Props)
           (box : option (Z * Z)) : bool :=
  match box with
  | Some (width, height) =>
      report_returns X p (mkState 0 0 false) width height
  | None => true
  end.

(** The callback invocations of the mount. *)
Definition mount_reported_change (X : Externals) (p : Props)
           (box : option (Z * Z)) : list CallbackEvent :=
  match box with
  | Some (width, height) =>
      reported_change X p (mkState 0 0 false) width height
  | None => []
  end.

(** Every size report returns for props [p]. *)
Definition reports_return (X : Externals) (p : Props) : Prop :=
  forall s width height, report_returns X p s width height = true.

(** The props an operation or an event brings have that property. *)
Definition op_props_ok (X : Externals) (op : Op) : Prop :=
  match op with
  | StoreProps newProps => reports_return X newProps
  | _ => True
  end.

Definition event_props_ok (X : Externals) (e : Event) : Prop :=
  match e with
  | PropsUpdate newProps => reports_return X newProps
  | _ => True
  end.

(** Under [P], [m] returns and [P] holds afterwards. *)
Definition safe {A} (P : Instance -> World -> Prop) (m : M A) : Prop :=
  forall i w,
    P i w ->
    returned (m i w) = true /\ P (inst_of (m i w)) (world_of (m i w)).

(** [P] holds after [m] whenever it held before, also where [m] throws. *)
Definition preserves {A} (P : Instance -> World -> Prop) (m : M A) : Prop :=
  forall i w, P i w -> P (inst_of (m i w)) (world_of (m i w)).

(** ** The lifetime of an adapter, read off the trace *)

(** The adapter a call is addressed to: itself, or the owner of the map. *)
Definition target (c : EngineCall) : nat :=
  match c with
  | MapboxNew (MapboxObj h) _ => h
  | MapboxSetProps (MapboxObj h) _ => h
  | MapboxFinalize (MapboxObj h) => h
  | MapSetStyle (MapObj h) _ _ => h
  | MapResize (MapObj h) => h
  | MapQueryRenderedFeatures (MapObj h) _ _ => h
  end.

Definition mem (h : nat) (l : list nat) : bool := existsb (Nat.eqb h) l.

(** The adapters constructed and not yet finalized, and all those ever
    constructed. *)
Record EngineState : Type := mkEngineState {
  live : list nat;
  used : list nat
}.

(** One call against the adapters' lifetimes: a construction yields a new
    adapter, [finalize] ends a live one, every other call needs a live
    one.  [None] when the call breaks that. *)
Definition engine_step (s : EngineState) (c : EngineCall)
  : option EngineState :=
  match c with
  | MapboxNew (MapboxObj h) _ =>
      if mem h (used s) then None
      else Some (mkEngineState (h :: live s) (h :: used s))
  | MapboxFinalize (MapboxObj h) =>
      if mem h (live s)
      then Some (mkEngineState (filter (fun x => negb (x =? h)%nat) (live s))
                               (used s))
      else None
  | _ => if mem (target c) (live s) then Some s else None
  end.

Definition replay (calls : list EngineCall) (s : option EngineState)
  : option EngineState :=
  fold_left (fun acc c =>
               match acc with
               | Some s => engine_step s c
               | None => None
               end)
            calls s.

(** No call before construction, none after [finalize], no second
    [finalize], no adapter constructed twice. *)
Definition disciplined (calls : list EngineCall) : bool :=
  match replay calls (Some (mkEngineState [] [])) with
  | Some _ => true
  | None => false
  end.

(** [_mapbox] and [_map] go together: both undefined, both null, or an
    adapter and its own map. *)
Definition in_step (i : Instance) : bool :=
  match _mapbox i, _map i with
  | Undefined, Undefined => true
  | Null, Null => true
  | Ref (MapboxObj a), Ref (MapObj b) => (a =? b)%nat
  | _, _ => false
  end.

(** The instance holds only a live adapter, and identifiers not yet handed
    out are unused. *)
Definition tracked (i : Instance) (w : World) : Prop :=
  exists s,
    replay (engine w) (Some (mkEngineState [] [])) = Some s
    /\ in_step i = true
    /\ (forall h, _mapbox i = Ref (MapboxObj h) -> mem h (live s) = true)
    /\ (forall h, mem h (used s) = true -> h < next_id w).

(** Both handles hold an object. *)
Definition attached (i : Instance) : bool :=
  match _mapbox i, _map i with
  | Ref _, Ref _ => true
  | _, _ => false
  end.

(** Every operation except [componentWillUnmount]. *)
Definition not_unmount (op : Op) : bool :=
  match op with
  | CallComponentWillUnmount => false
  | _ => true
  end.

(** The own keys of an object literal. *)
Definition keys (o : JSObject) : list string := map fst o.

(** Every operation except React storing new props. *)
Definition not_store (op : Op) : bool :=
  match op with
  | StoreProps _ => false
  | _ => true
  end.

(** Every operation except a size report. *)
Definition not_resize (op : Op) : bool :=
  match op with
  | CallOnResize _ _ => false
  | _ => true
  end.

(** ** More concrete inputs *)

(** Props with an [onViewportChange] callback. *)
Definition notifying_props : Props :=
  mkProps (JStr "mapbox://styles/mapbox/light-v8") (JBool false) JUndefined
          (JBool true) (JNum 400) (JNum 300) [] JUndefined JUndefined
          JUndefined (JNum 10) (JNum 50) (JNum 8) (JNum 0) (JNum 0)
          (JObj 5 []) [EText "marker"] [].

(** Props with a [style] of their own. *)
Definition styled_props : Props :=
  mkProps (JStr "mapbox://styles/mapbox/light-v8") (JBool false) JUndefined
          (JBool true) (JNum 400) (JNum 300)
          [("position", JStr "absolute"); ("border", JStr "1px solid");
           ("width", JNum 1)]
          JUndefined JUndefined
          JUndefined (JNum 10) (JNum 50) (JNum 8) (JNum 0) (JNum 0)
          JUndefined [EText "marker"] [].

(** A browser whose [MapState] rejects an empty box. *)
Definition fussy_browser : Externals :=
  mkExternals (mkEnv (Some true)) (fun v => v) zoom_check
              (fun _ w h =>
                 if (w =? 0)%Z || (h =? 0)%Z
                 then inl (Thrown (JStr "invalid size"))
                 else inr (JObj 900 [("width", JNum w); ("height", JNum h)]))
              call_function
              (fun _ _ _ => JObj 901 []).

(** A mounted component that wants to hear about viewport changes. *)
Definition mounted_notifying : Outcome unit :=
  react_mount fussy_browser dom_node None
              (constructor fussy_browser notifying_props) empty_world.

(** The status as a string. *)
Definition string_401 : ErrorEvent :=
  mkErrorEvent JUndefined (JStr "401").

(** A whole life in a browser, mounted twice. *)
Definition browser_life : list Op :=
  [CallRender; CallMapboxMapLoaded dom_node; CallComponentDidMount;
   CallOnResize 640 480;
   CallComponentDidUpdate light_props (mkState 0 0 false);
   CallComponentWillReceiveProps dark_props_no_diff;
   StoreProps dark_props_no_diff;
   CallQueryRenderedFeatures (JNum 0) JUndefined;
   CallMapboxMapError unauthorized; CallMapboxMapError unauthorized;
   CallComponentWillUnmount; CallMapboxMapLoaded JNull;
   CallQueryRenderedFeatures (JNum 0) JUndefined;
   CallComponentDidMount; CallOnResize 800 600;
   CallComponentDidUpdate dark_props_no_diff (mkState 640 480 true);
   CallComponentWillUnmount].

(** What a mounted component goes through. *)
Definition mounted_life : list Op :=
  [CallOnResize 640 480;
   CallComponentDidUpdate light_props (mkState 0 0 false);
   CallComponentWillReceiveProps dark_props_no_diff;
   StoreProps dark_props_no_diff; CallRender;
   CallComponentDidUpdate light_props (mkState 640 480 false);
   CallQueryRenderedFeatures (JNum 0) JNull; CallGetMap;
   CallMapboxMapError unauthorized; CallComponentDidMount].

(** What may arrive before [componentDidMount]. *)
Definition early_arrivals : list Op :=
  [CallRender; CallMapboxMapLoaded dom_node; CallGetMap;
   CallQueryRenderedFeatures (JNum 0) JUndefined;
   CallMapboxMapError unauthorized; CallOnResize 640 480;
   CallComponentDidUpdate light_props (mkState 0 0 false);
   CallComponentWillReceiveProps dark_props_no_diff;
   CallComponentWillUnmount].

(** A component mounted in a container of 640 by 480. *)
Definition mounted_laid_out : Outcome unit :=
  react_mount browser dom_node (Some (640, 480)%Z)
              (constructor browser light_props) empty_world.

(** Late events: two 401s around a size report, after unmount. *)
Definition late_events : list Event :=
  [EngineError unauthorized; SizeReport 800 600; EngineError unauthorized;
   AskMap].

(** Events of a mounted life. *)
Definition mounted_events : list Event :=
  [SizeReport 640 480; PropsUpdate dark_props_no_diff;
   EngineError unauthorized; AskFeatures (JNum 0) JUndefined;
   EngineError unauthorized; SizeReport 800 600; EngineError top_level_401].

(** * Properties *)

Section Properties.

Variable X : Externals.

(** Unfolds the method bodies down to the monad's primitives. *)
Ltac unfold_methods :=
  cbv beta iota zeta delta
    [step discard react_mount react_update react_unmount react_deliver
     react_commit_state record_callback
     call_componentDidMount call_componentWillReceiveProps
     call_componentDidUpdate call_componentWillUnmount
     componentDidMount componentWillReceiveProps componentDidUpdate
     componentWillUnmount getMap queryRenderedFeatures _onResize
     _mapboxMapLoaded _mapboxMapError render _renderNoTokenWarning
     _updateMapSize _updateMapStyle new_MapState_getViewportProps
     Mapbox_new Mapbox_setProps Mapbox_finalize setState noop
     set_state set_props set_mapbox set_map set_mapboxMap deref emit
     console_error invoke_callback bind ret throw this] in *.

(** Projections of explicit instances, worlds and outcomes. *)
Ltac fields :=
  cbn [props state _queryParams _mapbox _map _mapboxMap
       own_componentDidMount own_componentWillReceiveProps
       own_componentDidUpdate own_componentWillUnmount
       st_width st_height accessTokenInvalid
       engine console callbacks next_id
       with_state notify extend inst_of world_of returned] in *.

(** The cases of a size report: no callback, [MapState] throwing for the
    stored or for the measured size, and what the callback does. *)
Ltac split_report i rw rh :=
  destruct (truthy (onViewportChange (props i)));
  [ destruct (ext_getViewportProps X (props i) (st_width (state i))
                                   (st_height (state i)));
    [ | destruct (ext_getViewportProps X (props i) rw rh);
        [ | match goal with
            | |- context [ext_onViewportChange X ?f ?n ?o] =>
                destruct (ext_onViewportChange X f n o)
            end ] ]
  | ].

(** ** The trace is append-only *)

Lemma issued_extend (w : World) (calls : list EngineCall) :
  issued w (extend w calls) = calls.
Proof.
  unfold issued, extend; cbn.
  rewrite skipn_app, skipn_all, Nat.sub_diag; reflexivity.
Qed.

Lemma issued_nothing (w w' : World) :
  engine w' = engine w -> issued w w' = [].
Proof.
  intros E; unfold issued; rewrite E; apply skipn_all.
Qed.

(** ** JavaScript operators *)

Lemma truthy_js_and (a b : JSVal) :
  truthy (js_and a b) = truthy a && truthy b.
Proof.
  unfold js_and; destruct (truthy a) eqn:E; cbn; [reflexivity | exact E].
Qed.

Lemma strict_eq_truthy_401 (v : JSVal) :
  strict_eq v (JNum UNAUTHORIZED_ERROR_CODE) = true -> v = JNum 401.
Proof.
  destruct v; cbn; try discriminate.
  intros E; apply Z.eqb_eq in E; subst; reflexivity.
Qed.

(** ** Where the status code is read *)

Lemma statusCode_spec (evt : ErrorEvent) :
  statusCode evt =
    if truthy (evt_error evt) && truthy (get_prop (evt_error evt) "status")
    then get_prop (evt_error evt) "status"
    else evt_status evt.
Proof.
  unfold statusCode, js_or.
  destruct (truthy (evt_error evt)) eqn:E; cbn; [reflexivity|].
  rewrite E; reflexivity.
Qed.

(** What a 401 does when the flag is not yet set. *)
Lemma unauthorized_first_time (evt : ErrorEvent) (i : Instance) (w : World) :
  statusCode evt = JNum 401 ->
  accessTokenInvalid (state i) = false ->
  exists i',
    _mapboxMapError evt i w =
      Ok tt i' (mkWorld (engine w) (console w ++ [NO_TOKEN_WARNING])
                        (callbacks w) (next_id w))
    /\ accessTokenInvalid (state i') = true
    /\ props i' = props i
    /\ _map i' = _map i /\ _mapbox i' = _mapbox i.
Proof.
  intros S F. unfold _mapboxMapError. rewrite S.
  unfold_methods. cbn. rewrite F. cbn.
  eexists; repeat split.
Qed.

(** Any other status code, or a flag already set, makes the handler a
    no-op. *)
Lemma error_ignored (evt : ErrorEvent) (i : Instance) (w : World) :
  strict_eq (statusCode evt) (JNum UNAUTHORIZED_ERROR_CODE) = false
  \/ accessTokenInvalid (state i) = true ->
  _mapboxMapError evt i w = Ok tt i w.
Proof.
  intros H. unfold _mapboxMapError. unfold_methods.
  destruct H as [H | H]; rewrite H; cbn; rewrite ?andb_false_r; reflexivity.
Qed.

(** C9: the status code tested against 401 is [evt.error.status] when
    [evt.error] is truthy and carries a truthy [status], and [evt.status]
    otherwise.  So a nested falsy status with a top-level 401 triggers the
    invalid-token handling, and a nested truthy status other than 401 hides
    a top-level 401. *)
Theorem status_code_prefers_nested_error (evt : ErrorEvent) :
  statusCode evt =
    (if truthy (evt_error evt) && truthy (get_prop (evt_error evt) "status")
     then get_prop (evt_error evt) "status"
     else evt_status evt)
  /\ (forall i w,
        truthy (get_prop (evt_error evt) "status") = false ->
        evt_status evt = JNum 401 ->
        accessTokenInvalid (state i) = false ->
        console (world_of (_mapboxMapError evt i w))
          = console w ++ [NO_TOKEN_WARNING]
        /\ accessTokenInvalid (state (inst_of (_mapboxMapError evt i w)))
           = true)
  /\ (forall i w,
        truthy (evt_error evt) = true ->
        truthy (get_prop (evt_error evt) "status") = true ->
        strict_eq (get_prop (evt_error evt) "status")
                  (JNum UNAUTHORIZED_ERROR_CODE) = false ->
        evt_status evt = JNum 401 ->
        _mapboxMapError evt i w = Ok tt i w).
Proof.
  split; [apply statusCode_spec|]. split.
  - intros i w Hn Hs Hf.
    assert (S : statusCode evt = JNum 401).
    { rewrite statusCode_spec, Hn, andb_false_r; exact Hs. }
    destruct (unauthorized_first_time evt i w S Hf) as (i' & E & A & _).
    rewrite E; cbn; auto.
  - intros i w He Hn Hc _.
    apply error_ignored; left.
    rewrite statusCode_spec, He, Hn; exact Hc.
Qed.

(** ** Rendering *)

Lemma render_returns (i : Instance) (w : World) :
  render X i w =
    Ok (map_container (props i)
          [map_surface X i; overlay_container (props i); autosizer;
           if accessTokenInvalid (state i)
              && negb (truthy (disableTokenWarning (props i)))
           then no_token_warning else ENull])
       i w.
Proof.
  unfold_methods.
  destruct (accessTokenInvalid (state i)
            && negb (truthy (disableTokenWarning (props i)))); reflexivity.
Qed.

Lemma visibility_style (i : Instance) :
  obj_get (render_mapStyle X i) "visibility" =
    JStr (if truthy (visible (props i))
             && truthy (ext_checkVisibilityConstraints X
                          (view_source (props i))
                          (visibilityConstraints (props i)))
          then "visible" else "hidden").
Proof.
  unfold render_mapStyle, render_visible; cbn.
  rewrite truthy_js_and; reflexivity.
Qed.

(** C10: the visibility constraints are evaluated against [viewState]
    when that prop is supplied and against the props themselves otherwise;
    with a [viewState], the top-level longitude, latitude, zoom, bearing and
    pitch do not influence the computed visibility. *)
Theorem constraints_read_viewState_first (p : Props) :
  (truthy (viewState p) = true ->
   render_visible X p =
     js_and (visible p)
            (ext_checkVisibilityConstraints X (FromViewState (viewState p))
                                            (visibilityConstraints p)))
  /\ (truthy (viewState p) = false ->
      render_visible X p =
        js_and (visible p)
               (ext_checkVisibilityConstraints X (FromProps p)
                                               (visibilityConstraints p)))
  /\ (truthy (viewState p) = true ->
      forall (lon lat z b pt : JSVal) (i : Instance),
        props i = p ->
        render_visible X (with_geography p lon lat z b pt)
          = render_visible X p
        /\ render_mapStyle X (inst_of (set_props
                                         (with_geography p lon lat z b pt)
                                         i empty_world))
           = render_mapStyle X i).
Proof.
  unfold render_visible, view_source.
  split; [intros V; rewrite V; reflexivity|].
  split; [intros V; rewrite V; reflexivity|].
  intros V lon lat z b pt i E.
  unfold render_mapStyle, render_visible, view_source; cbn.
  rewrite E, V; auto.
Qed.

(** The children of the rendered container, by key. *)
Lemma surface_child (i : Instance) (w : World) :
  child_with_key (rendered (render X i w)) "map-mapbox"
  = Some (ENode (HostTag "div")
            [("key", AVal (JStr "map-mapbox"));
             ("ref", AFun H_mapboxMapLoaded);
             ("style", AObj (render_mapStyle X i));
             ("className", AVal (className (props i)))]
            []).
Proof. rewrite render_returns. reflexivity. Qed.

Lemma overlays_child (i : Instance) (w : World) :
  child_with_key (rendered (render X i w)) "map-overlays"
  = Some (ENode (HostTag "div")
            [("key", AVal (JStr "map-overlays"));
             ("className", AVal (JStr "overlays"));
             ("style", AObj OVERLAY_CONTAINER_STYLE)]
            (children (props i))).
Proof. rewrite render_returns. reflexivity. Qed.

Lemma warning_child (i : Instance) (w : World) :
  child_with_key (rendered (render X i w)) "warning"
  = if accessTokenInvalid (state i)
       && negb (truthy (disableTokenWarning (props i)))
    then Some (ENode (HostTag "div")
                 [("key", AVal (JStr "warning"));
                  ("id", AVal (JStr "no-token-warning"));
                  ("style",
                   AObj [("position", JStr "absolute"); ("left", JNum 0);
                         ("top", JNum 0)])]
                 [ENode (HostTag "h3") [("key", AVal (JStr "header"))]
                    [EText "A valid API access token is required to use Mapbox data"];
                  ENode (HostTag "div") [("key", AVal (JStr "text"))]
                    [EText "For information on setting up your basemap, read"];
                  ENode (HostTag "a")
                    [("key", AVal (JStr "link"));
                     ("href",
                      AVal (JStr "https://uber.github.io/react-map-gl/#/Documentation/getting-started/about-mapbox-tokens"))]
                    [EText "Note on Map Tokens"]])
    else None.
Proof.
  rewrite render_returns.
  destruct (accessTokenInvalid (state i)
            && negb (truthy (disableTokenWarning (props i)))); reflexivity.
Qed.

(** C6: a 401 arriving while [accessTokenInvalid] is false logs exactly
    one line and sets the flag.  The next render, whatever props React has
    stored by then, has the warning overlay among the container's children:
    the [div] with id [no-token-warning] holding the heading, the text and
    the link to the token documentation.  With a truthy
    [disableTokenWarning] the container has no such child, in that render
    and in every other, the flag being set all the same. *)
Theorem first_unauthorized_error_warns_once
        (evt : ErrorEvent) (i : Instance) (w : World) :
  strict_eq (statusCode evt) (JNum UNAUTHORIZED_ERROR_CODE) = true ->
  accessTokenInvalid (state i) = false ->
  let o := _mapboxMapError evt i w in
  returned o = true
  /\ console (world_of o) = console w ++ [NO_TOKEN_WARNING]
  /\ engine (world_of o) = engine w
  /\ accessTokenInvalid (state (inst_of o)) = true
  /\ (forall (p : Props) (w' : World),
        let j := inst_of (set_props p (inst_of o) w') in
        render X j w' =
          Ok (map_container p
                [map_surface X j; overlay_container p; autosizer;
                 if truthy (disableTokenWarning p)
                 then ENull else no_token_warning])
             j w'
        /\ child_with_key (rendered (render X j w')) "warning"
           = if truthy (disableTokenWarning p) then None
             else
               Some (ENode (HostTag "div")
                       [("key", AVal (JStr "warning"));
                        ("id", AVal (JStr "no-token-warning"));
                        ("style",
                         AObj [("position", JStr "absolute");
                               ("left", JNum 0); ("top", JNum 0)])]
                       [ENode (HostTag "h3") [("key", AVal (JStr "header"))]
                          [EText "A valid API access token is required to use Mapbox data"];
                        ENode (HostTag "div") [("key", AVal (JStr "text"))]
                          [EText "For information on setting up your basemap, read"];
                        ENode (HostTag "a")
                          [("key", AVal (JStr "link"));
                           ("href",
                            AVal (JStr "https://uber.github.io/react-map-gl/#/Documentation/getting-started/about-mapbox-tokens"))]
                          [EText "Note on Map Tokens"]]))
  /\ (forall (j : Instance) (w' : World),
        truthy (disableTokenWarning (props j)) = true ->
        _renderNoTokenWarning j w' = Ok ENull j w'
        /\ child_with_key (rendered (render X j w')) "warning" = None).
Proof.
  intros S F o.
  apply strict_eq_truthy_401 in S.
  destruct (unauthorized_first_time evt i w S F) as (i' & E & A & P & _).
  subst o; rewrite E.
  split; [reflexivity|]. split; [reflexivity|]. split; [reflexivity|].
  split; [exact A|]. split.
  - intros p w' j. split.
    + rewrite render_returns.
      subst j; cbn [inst_of set_props props state world_of]. rewrite A.
      destruct (truthy (disableTokenWarning p)); reflexivity.
    + rewrite warning_child.
      subst j; cbn [inst_of set_props props state world_of]. rewrite A.
      destruct (truthy (disableTokenWarning p)); reflexivity.
  - intros j w' D. split.
    + unfold_methods. rewrite D, andb_false_r; reflexivity.
    + rewrite warning_child, D, andb_false_r. reflexivity.
Qed.

(** C7: when [visible] is falsy or the constraints evaluate to a falsy
    value, the mapping surface, the [div] with key [map-mapbox], is among
    the children of the rendered container and its style has visibility
    [hidden] (and the stored width and height).  Rendering leaves the
    instance and the engine alone, so [getMap] and [queryRenderedFeatures]
    issued after the render reach the live engine.  With [visible] and the
    constraints both truthy the visibility is [visible]. *)
Theorem hidden_map_stays_mounted
        (i : Instance) (w : World) (m : MapRef) (geometry options : JSVal) :
  _map i = Ref m ->
  let verdict :=
    ext_checkVisibilityConstraints X (view_source (props i))
                                   (visibilityConstraints (props i)) in
  (exists warning,
     render X i w =
       Ok (map_container (props i)
             [map_surface X i; overlay_container (props i); autosizer;
              warning])
          i w)
  /\ (exists surface_style,
        child_with_key (rendered (render X i w)) "map-mapbox"
        = Some (ENode (HostTag "div")
                  [("key", AVal (JStr "map-mapbox"));
                   ("ref", AFun H_mapboxMapLoaded);
                   ("style", AObj surface_style);
                   ("className", AVal (className (props i)))]
                  [])
        /\ obj_get surface_style "width" = JNum (st_width (state i))
        /\ obj_get surface_style "height" = JNum (st_height (state i))
        /\ (truthy (visible (props i)) = false \/ truthy verdict = false ->
            obj_get surface_style "visibility" = JStr "hidden")
        /\ (truthy (visible (props i)) = true -> truthy verdict = true ->
            obj_get surface_style "visibility" = JStr "visible"))
  /\ (truthy (visible (props i)) = false \/ truthy verdict = false ->
      obj_get (render_mapStyle X i) "visibility" = JStr "hidden")
  /\ (truthy (visible (props i)) = true -> truthy verdict = true ->
      obj_get (render_mapStyle X i) "visibility" = JStr "visible")
  /\ (render X;; getMap) i w = Ok (Ref m) i w
  /\ exists opts,
       (render X;; queryRenderedFeatures X geometry options) i w =
         Ok (ext_engine_features X m geometry opts) i
            (mkWorld (engine w ++ [MapQueryRenderedFeatures m geometry opts])
                     (console w) (callbacks w) (next_id w)).
Proof.
  intros Hm verdict.
  assert (Hh : truthy (visible (props i)) = false \/ truthy verdict = false ->
               obj_get (render_mapStyle X i) "visibility" = JStr "hidden").
  { intros H. rewrite visibility_style. fold verdict.
    destruct H as [H | H]; rewrite H; rewrite ?andb_false_r; reflexivity. }
  assert (Hv : truthy (visible (props i)) = true -> truthy verdict = true ->
               obj_get (render_mapStyle X i) "visibility" = JStr "visible").
  { intros V C. rewrite visibility_style. fold verdict.
    rewrite V, C; reflexivity. }
  split; [eexists; apply render_returns|].
  split.
  { exists (render_mapStyle X i). split; [apply surface_child|].
    split; [reflexivity|]. split; [reflexivity|]. split; assumption. }
  split; [exact Hh|]. split; [exact Hv|].
  split.
  { unfold bind at 1. rewrite render_returns.
    unfold_methods. exact (f_equal (fun s => Ok s i w) Hm). }
  { unfold bind at 1. rewrite render_returns.
    unfold_methods. rewrite Hm. eexists; reflexivity. }
Qed.

(** ** What each lifecycle method does, case by case *)

Lemma receive_props_outcome (i : Instance) (w : World) (newProps : Props) :
  call_componentWillReceiveProps X newProps i w =
    match own_componentWillReceiveProps i with
    | Noop => Ok tt i w
    | Proto =>
        match _mapbox i with
        | Ref mb =>
            if strict_neq (mapStyle newProps) (mapStyle (props i)) then
              match _map i with
              | Ref m =>
                  Ok tt i
                     (extend w
                        [MapboxSetProps mb newProps;
                         MapSetStyle m
                           (ext_normalizeStyle X (mapStyle newProps))
                           (negb (truthy (preventStyleDiffing (props i))))])
              | _ =>
                  Throw (TypeError "setStyle") i
                        (extend w [MapboxSetProps mb newProps])
              end
            else Ok tt i (extend w [MapboxSetProps mb newProps])
        | _ => Throw (TypeError "setProps") i w
        end
    end.
Proof.
  unfold_methods.
  destruct (own_componentWillReceiveProps i); [|reflexivity].
  destruct (_mapbox i); try reflexivity.
  destruct (strict_neq (mapStyle newProps) (mapStyle (props i)));
    [|reflexivity].
  destruct (_map i); try reflexivity.
  unfold extend; cbn; rewrite <- app_assoc; reflexivity.
Qed.

Lemma did_update_outcome
      (i : Instance) (w : World) (prevProps : Props) (prevState : State) :
  call_componentDidUpdate prevProps prevState i w =
    match own_componentDidUpdate i with
    | Noop => Ok tt i w
    | Proto =>
        if negb (st_width prevState =? st_width (state i))%Z
           || negb (st_height prevState =? st_height (state i))%Z
        then match _map i with
             | Ref m => Ok tt i (extend w [MapResize m])
             | _ => Throw (TypeError "resize") i w
             end
        else Ok tt i w
    end.
Proof.
  unfold_methods.
  destruct (own_componentDidUpdate i); [|reflexivity].
  destruct (negb (st_width prevState =? st_width (state i))%Z
            || negb (st_height prevState =? st_height (state i))%Z);
    [|reflexivity].
  destruct (_map i); reflexivity.
Qed.

Lemma will_unmount_outcome (i : Instance) (w : World) :
  call_componentWillUnmount i w =
    match own_componentWillUnmount i with
    | Noop => Ok tt i w
    | Proto =>
        match _mapbox i with
        | Ref mb =>
            Ok tt
               (mkInstance (props i) (state i) (_queryParams i) Null Null
                  (_mapboxMap i) (own_componentDidMount i)
                  (own_componentWillReceiveProps i)
                  (own_componentDidUpdate i) (own_componentWillUnmount i))
               (extend w [MapboxFinalize mb])
        | _ => Throw (TypeError "finalize") i w
        end
    end.
Proof.
  destruct i as [p s q mb m node h1 h2 h3 h4].
  unfold_methods; cbn.
  destruct h4; [|reflexivity].
  destruct mb; reflexivity.
Qed.

Lemma did_mount_outcome (i : Instance) (w : World) :
  call_componentDidMount X i w =
    match own_componentDidMount i with
    | Noop => Ok tt i w
    | Proto =>
        let mb := MapboxObj (next_id w) in
        Ok tt
           (mkInstance (props i) (state i) (_queryParams i) (Ref mb)
              (Ref (Mapbox_getMap mb)) (_mapboxMap i)
              (own_componentDidMount i) (own_componentWillReceiveProps i)
              (own_componentDidUpdate i) (own_componentWillUnmount i))
           (mkWorld
              (engine w ++
               [MapboxNew mb
                  (mkConfig (props i) (mapboxgl (ext_env X)) (_mapboxMap i)
                     H_mapboxMapError
                     (ext_normalizeStyle X (mapStyle (props i))))])
              (console w) (callbacks w) (S (next_id w)))
    end.
Proof.
  destruct i as [p s q mb m node h1 h2 h3 h4].
  unfold_methods; cbn.
  destruct h1; reflexivity.
Qed.

Lemma receive_props_keeps_instance
      (i : Instance) (w : World) (newProps : Props) :
  inst_of (call_componentWillReceiveProps X newProps i w) = i.
Proof.
  rewrite receive_props_outcome.
  destruct (own_componentWillReceiveProps i), (_mapbox i),
    (strict_neq (mapStyle newProps) (mapStyle (props i))), (_map i);
    reflexivity.
Qed.

(** A props update: the state does not change in between, so the render and
    [componentDidUpdate] add nothing to what [componentWillReceiveProps]
    issued. *)
Lemma update_issues_what_the_hook_issues
      (i : Instance) (w : World) (newProps : Props) :
  engine (world_of (react_update X newProps i w))
  = engine (world_of (call_componentWillReceiveProps X newProps i w)).
Proof.
  pose proof (receive_props_keeps_instance i w newProps) as K.
  unfold react_update, bind at 1 2, this.
  destruct (call_componentWillReceiveProps X newProps i w)
    as [[] i' w'|e i' w']; [|reflexivity].
  cbn in K; subst i'.
  unfold bind at 1. cbn [set_props].
  unfold bind at 1. rewrite render_returns.
  rewrite did_update_outcome. cbn [world_of own_componentDidUpdate state].
  rewrite !Z.eqb_refl; cbn [negb orb].
  destruct (own_componentDidUpdate i); reflexivity.
Qed.

Lemma issued_by_update (i : Instance) (w : World) (newProps : Props) :
  issued w (world_of (react_update X newProps i w))
  = issued w (world_of (call_componentWillReceiveProps X newProps i w)).
Proof.
  unfold issued; rewrite update_issues_what_the_hook_issues; reflexivity.
Qed.

(** With an unchanged style the hook issues at most [setProps]. *)
Lemma unchanged_style_calls (i : Instance) (w : World) (newProps : Props) :
  strict_eq (mapStyle newProps) (mapStyle (props i)) = true ->
  filter is_setStyle
    (issued w (world_of (call_componentWillReceiveProps X newProps i w)))
  = [].
Proof.
  intros E. rewrite receive_props_outcome. unfold strict_neq. rewrite E.
  cbn [negb].
  destruct (own_componentWillReceiveProps i), (_mapbox i);
    cbn [world_of]; rewrite ?issued_extend; try reflexivity;
    rewrite issued_nothing; reflexivity.
Qed.

(** C3: a props update whose [mapStyle] is [===] to the previous one
    issues no [setStyle], through [componentWillReceiveProps] alone or
    through the whole update; a [setStyle] is issued only when the two
    differ. *)
Theorem unchanged_style_is_not_swapped
        (i : Instance) (w : World) (newProps : Props) :
  let by_hook :=
    issued w (world_of (call_componentWillReceiveProps X newProps i w)) in
  let by_update := issued w (world_of (react_update X newProps i w)) in
  (strict_eq (mapStyle newProps) (mapStyle (props i)) = true ->
   filter is_setStyle by_hook = [] /\ filter is_setStyle by_update = [])
  /\ (filter is_setStyle by_hook <> [] \/ filter is_setStyle by_update <> [] ->
      strict_neq (mapStyle newProps) (mapStyle (props i)) = true).
Proof.
  intros by_hook by_update.
  assert (U : by_update = by_hook) by apply issued_by_update.
  assert (H : strict_eq (mapStyle newProps) (mapStyle (props i)) = true ->
              filter is_setStyle by_hook = []) by apply unchanged_style_calls.
  rewrite U. split.
  - intros E; split; apply H; exact E.
  - intros N. unfold strict_neq.
    destruct (strict_eq (mapStyle newProps) (mapStyle (props i)));
      [|reflexivity].
    destruct N as [N | N]; elim N; apply H; reflexivity.
Qed.

(** On a mounted component a changed style is swapped exactly once, for the
    normalized new style; the [diff] option is computed from [this.props],
    which still holds the previous props. *)
Lemma changed_style_is_swapped
      (i : Instance) (w : World) (newProps : Props)
      (mb : MapboxRef) (m : MapRef) :
  own_componentWillReceiveProps i = Proto ->
  _mapbox i = Ref mb ->
  _map i = Ref m ->
  strict_neq (mapStyle newProps) (mapStyle (props i)) = true ->
  issued w (world_of (react_update X newProps i w))
  = [MapboxSetProps mb newProps;
     MapSetStyle m (ext_normalizeStyle X (mapStyle newProps))
                 (negb (truthy (preventStyleDiffing (props i))))].
Proof.
  intros H B Mp N.
  rewrite issued_by_update, receive_props_outcome, H, B, Mp, N.
  cbn [world_of]. apply issued_extend.
Qed.

(** The comparison is by identity: two style objects with the same content
    at different addresses are different styles, and the swap is issued. *)
Lemma equal_content_is_not_identity
      (i : Instance) (w : World) (newProps : Props)
      (mb : MapboxRef) (m : MapRef) (a b : nat) (content : JSObject) :
  own_componentWillReceiveProps i = Proto ->
  _mapbox i = Ref mb ->
  _map i = Ref m ->
  mapStyle (props i) = JObj a content ->
  mapStyle newProps = JObj b content ->
  a <> b ->
  filter is_setStyle (issued w (world_of (react_update X newProps i w)))
  = [MapSetStyle m (ext_normalizeStyle X (JObj b content))
                 (negb (truthy (preventStyleDiffing (props i))))].
Proof.
  intros H B Mp Eo En D.
  rewrite (changed_style_is_swapped i w newProps mb m H B Mp).
  - rewrite En; reflexivity.
  - unfold strict_neq. rewrite Eo, En. cbn.
    apply Nat.eqb_neq in D. rewrite Nat.eqb_sym, D. reflexivity.
Qed.

(** C4: when the stored width and height both equal the previous
    state's, [componentDidUpdate] issues no engine call at all, on any
    instance; on a mounted component it calls [resize()] exactly when the
    stored width or height differs, and then exactly once. *)
Theorem resize_exactly_on_size_change
        (i : Instance) (w : World) (prevProps : Props) (prevState : State) :
  let o := call_componentDidUpdate prevProps prevState i w in
  (st_width prevState = st_width (state i) ->
   st_height prevState = st_height (state i) ->
   returned o = true /\ issued w (world_of o) = [])
  /\ (forall m : MapRef,
        own_componentDidUpdate i = Proto ->
        _map i = Ref m ->
        returned o = true
        /\ (st_width prevState <> st_width (state i)
            \/ st_height prevState <> st_height (state i) ->
            issued w (world_of o) = [MapResize m])
        /\ (In (MapResize m) (issued w (world_of o)) <->
            st_width prevState <> st_width (state i)
            \/ st_height prevState <> st_height (state i))).
Proof.
  intros o. subst o. rewrite did_update_outcome. split.
  - intros W T. rewrite W, T, !Z.eqb_refl. cbn [negb orb].
    destruct (own_componentDidUpdate i); cbn [returned world_of];
      rewrite (issued_nothing w w eq_refl); auto.
  - intros m H Mp. rewrite H, Mp.
    destruct (Z.eqb_spec (st_width prevState) (st_width (state i))) as [W|W];
    destruct (Z.eqb_spec (st_height prevState) (st_height (state i)))
      as [T|T];
      cbn [negb orb returned world_of];
      rewrite ?issued_extend, ?(issued_nothing w w eq_refl);
      (split; [reflexivity|]);
      (split; [intros [N|N]; try reflexivity; contradiction|]);
      cbn [In]; intuition congruence.
Qed.

(** A measurement followed by the [componentDidUpdate] React runs for it:
    the engine is resized exactly when the measured size differs from the
    stored one. *)
Lemma measurement_resizes_engine
      (i : Instance) (w : World) (width height : Z) (m : MapRef) :
  own_componentDidUpdate i = Proto ->
  _map i = Ref m ->
  truthy (onViewportChange (props i)) = false ->
  issued w (world_of ((_onResize X width height;;
                       call_componentDidUpdate (props i) (state i)) i w))
  = if (st_width (state i) =? width)%Z && (st_height (state i) =? height)%Z
    then [] else [MapResize m].
Proof.
  intros H Mp V.
  unfold bind at 1.
  assert (R : _onResize X width height i w
              = Ok tt (inst_of (set_state
                                  (mkState width height
                                           (accessTokenInvalid (state i)))
                                  i w)) w).
  { unfold_methods. rewrite V. reflexivity. }
  rewrite R, did_update_outcome.
  cbn [inst_of set_state own_componentDidUpdate _map state st_width
       st_height].
  rewrite H, Mp.
  destruct (st_width (state i) =? width)%Z,
           (st_height (state i) =? height)%Z; cbn [negb orb andb world_of];
    first [apply (issued_nothing w w eq_refl) | apply issued_extend].
Qed.


(** ** Runs *)

Lemma run_step (op : Op) (rest : list Op) (i : Instance) (w : World) :
  final_inst (run X (op :: rest) i w)
  = final_inst (run X rest (inst_of (step X op i w))
                           (world_of (step X op i w)))
  /\ final_world (run X (op :: rest) i w)
     = final_world (run X rest (inst_of (step X op i w))
                               (world_of (step X op i w)))
  /\ raised (run X (op :: rest) i w)
     = (match step X op i w with
        | Ok _ _ _ => []
        | Throw e _ _ => [e]
        end)
       ++ raised (run X rest (inst_of (step X op i w))
                             (world_of (step X op i w))).
Proof.
  cbn [run]. destruct (step X op i w); cbn; auto.
Qed.

(** A property kept by every allowed operation is kept by every run of
    allowed operations. *)
Lemma run_invariant (P : Instance -> World -> Prop) (allowed : Op -> bool) :
  (forall op i w, allowed op = true -> P i w ->
                  P (inst_of (step X op i w)) (world_of (step X op i w))) ->
  forall ops i w,
    forallb allowed ops = true -> P i w ->
    P (final_inst (run X ops i w)) (final_world (run X ops i w)).
Proof.
  intros Hstep ops; induction ops as [|op rest IH]; intros i w A Hp.
  - exact Hp.
  - cbn [forallb] in A. apply andb_true_iff in A as [A1 A2].
    destruct (run_step op rest i w) as (Ei & Ew & _). rewrite Ei, Ew.
    apply IH; [exact A2 | apply Hstep; assumption].
Qed.

(** If moreover no allowed operation throws under the property, the run
    raises nothing. *)
Lemma run_raises_nothing
      (P : Instance -> World -> Prop) (allowed : Op -> bool) :
  (forall op i w, allowed op = true -> P i w ->
                  P (inst_of (step X op i w)) (world_of (step X op i w))) ->
  (forall op i w, allowed op = true -> P i w ->
                  returned (step X op i w) = true) ->
  forall ops i w,
    forallb allowed ops = true -> P i w -> raised (run X ops i w) = [].
Proof.
  intros Hstep Hret ops; induction ops as [|op rest IH]; intros i w A Hp.
  - reflexivity.
  - cbn [forallb] in A. apply andb_true_iff in A as [A1 A2].
    destruct (run_step op rest i w) as (_ & _ & Er). rewrite Er.
    rewrite IH; [|exact A2 | apply Hstep; assumption].
    specialize (Hret op i w A1 Hp).
    destruct (step X op i w); [reflexivity | discriminate].
Qed.

Lemma all_allowed (ops : list Op) : forallb (fun _ => true) ops = true.
Proof. induction ops; cbn; auto. Qed.

(** ** The invalid-token flag *)

Lemma step_keeps_flag (op : Op) (i : Instance) (w : World) (log : list string) :
  accessTokenInvalid (state i) = true /\ console w = log ->
  accessTokenInvalid (state (inst_of (step X op i w))) = true
  /\ console (world_of (step X op i w)) = log.
Proof.
  intros [F C].
  destruct op as [|np|np|pp ps| | | |g o|rw rh|node|evt]; cbn [step].
  - rewrite did_mount_outcome.
    destruct (own_componentDidMount i); cbn; auto.
  - rewrite receive_props_outcome.
    destruct (own_componentWillReceiveProps i), (_mapbox i),
      (strict_neq (mapStyle np) (mapStyle (props i))), (_map i);
      cbn; auto.
  - cbn; auto.
  - rewrite did_update_outcome.
    destruct (own_componentDidUpdate i),
      (negb (st_width ps =? st_width (state i))%Z
       || negb (st_height ps =? st_height (state i))%Z), (_map i);
      cbn; auto.
  - rewrite will_unmount_outcome.
    destruct (own_componentWillUnmount i), (_mapbox i); cbn; auto.
  - unfold discard, bind. rewrite render_returns. cbn; auto.
  - cbn; auto.
  - unfold_methods. destruct (_map i); cbn; auto.
  - unfold_methods.
    split_report i rw rh; cbn; auto.
  - cbn; auto.
  - rewrite error_ignored by (right; exact F). cbn; auto.
Qed.

(** C2: once [accessTokenInvalid] is set, no run of operations, 401
    error events included, adds a line to the console or clears the flag;
    a further 401 event leaves instance and world as they are. *)
Theorem token_flag_is_monotone (ops : list Op) (i : Instance) (w : World) :
  accessTokenInvalid (state i) = true ->
  let t := run X ops i w in
  accessTokenInvalid (state (final_inst t)) = true
  /\ console (final_world t) = console w
  /\ forall evt w',
       strict_eq (statusCode evt) (JNum UNAUTHORIZED_ERROR_CODE) = true ->
       _mapboxMapError evt (final_inst t) w' = Ok tt (final_inst t) w'.
Proof.
  intros F t.
  assert (K : accessTokenInvalid (state (final_inst t)) = true
              /\ console (final_world t) = console w).
  { apply (run_invariant
             (fun i w' => accessTokenInvalid (state i) = true
                          /\ console w' = console w)
             (fun _ => true)).
    - intros op j w' _ H. apply step_keeps_flag; exact H.
    - apply all_allowed.
    - split; [exact F | reflexivity]. }
  destruct K as [K1 K2]. repeat split; auto.
  intros evt w' _. apply error_ignored; right; exact K1.
Qed.

(** ** After unmount *)

Lemma step_after_unmount
      (op : Op) (i : Instance) (w : World) (calls : list EngineCall) :
  not_mount op = true ->
  _mapbox i = Null /\ _map i = Null /\ engine w = calls ->
  _mapbox (inst_of (step X op i w)) = Null
  /\ _map (inst_of (step X op i w)) = Null
  /\ engine (world_of (step X op i w)) = calls.
Proof.
  intros L (B & Mp & E).
  destruct op as [|np|np|pp ps| | | |g o|rw rh|node|evt]; cbn [step].
  - discriminate.
  - rewrite receive_props_outcome, B.
    destruct (own_componentWillReceiveProps i); cbn; auto.
  - cbn; auto.
  - rewrite did_update_outcome, Mp.
    destruct (own_componentDidUpdate i),
      (negb (st_width ps =? st_width (state i))%Z
       || negb (st_height ps =? st_height (state i))%Z);
      cbn; auto.
  - rewrite will_unmount_outcome, B.
    destruct (own_componentWillUnmount i); cbn; auto.
  - unfold discard, bind. rewrite render_returns. cbn; auto.
  - cbn; auto.
  - unfold_methods. rewrite Mp. cbn; auto.
  - unfold_methods.
    split_report i rw rh; cbn; auto.
  - cbn; auto.
  - unfold_methods.
    destruct (strict_eq (statusCode evt) (JNum UNAUTHORIZED_ERROR_CODE)
              && negb (accessTokenInvalid (state i))); cbn; auto.
Qed.

Lemma error_handler_returns (evt : ErrorEvent) (i : Instance) (w : World) :
  returned (_mapboxMapError evt i w) = true
  /\ engine (world_of (_mapboxMapError evt i w)) = engine w
  /\ _map (inst_of (_mapboxMapError evt i w)) = _map i
  /\ _mapbox (inst_of (_mapboxMapError evt i w)) = _mapbox i.
Proof.
  unfold_methods.
  destruct (strict_eq (statusCode evt) (JNum UNAUTHORIZED_ERROR_CODE)
            && negb (accessTokenInvalid (state i))); cbn; auto.
Qed.

(** C1, as the code has it: on unmount of a mounted component
    [finalize()] is called on the adapter exactly once and [_mapbox] and
    [_map] are null right after.  From then on no operation other than a new
    [componentDidMount] reaches the engine; [getMap] returns null and an
    error event returns normally, while [queryRenderedFeatures] throws a
    [TypeError], since it calls through the nulled [_map]. *)
Theorem unmount_finalizes_once_and_detaches
        (i : Instance) (w : World) (mb : MapboxRef) :
  own_componentWillUnmount i = Proto ->
  _mapbox i = Ref mb ->
  let o := call_componentWillUnmount i w in
  returned o = true
  /\ issued w (world_of o) = [MapboxFinalize mb]
  /\ _mapbox (inst_of o) = Null
  /\ _map (inst_of o) = Null
  /\ forall ops,
       forallb not_mount ops = true ->
       let t := run X ops (inst_of o) (world_of o) in
       engine (final_world t) = engine (world_of o)
       /\ (forall w', getMap (final_inst t) w' = Ok Null (final_inst t) w')
       /\ (forall evt w',
             returned (_mapboxMapError evt (final_inst t) w') = true
             /\ engine (world_of (_mapboxMapError evt (final_inst t) w'))
                = engine w')
       /\ (forall geometry options w',
             queryRenderedFeatures X geometry options (final_inst t) w'
             = Throw (TypeError "queryRenderedFeatures") (final_inst t) w').
Proof.
  intros H B o. subst o. rewrite will_unmount_outcome, H, B.
  cbn [returned world_of inst_of _mapbox _map].
  split; [reflexivity|]. split; [apply issued_extend|].
  split; [reflexivity|]. split; [reflexivity|].
  intros ops L.
  set (t := run X ops _ _).
  assert (K : _mapbox (final_inst t) = Null /\ _map (final_inst t) = Null
              /\ engine (final_world t)
                 = engine (extend w [MapboxFinalize mb])).
  { apply (run_invariant
             (fun j w' => _mapbox j = Null /\ _map j = Null
                          /\ engine w' = engine (extend w [MapboxFinalize mb]))
             not_mount).
    - intros op j w' A P. apply step_after_unmount; assumption.
    - exact L.
    - cbn; auto. }
  destruct K as (K1 & K2 & K3).
  split; [exact K3|]. split.
  { intros w'. unfold_methods. rewrite K2. reflexivity. }
  split.
  { intros evt w'.
    destruct (error_handler_returns evt (final_inst t) w') as (R & E & _).
    auto. }
  { intros g opts w'. unfold_methods. rewrite K2. reflexivity. }
Qed.

(** ** An unsupported environment *)

Lemma constructor_inert (p : Props) :
  supported X = false -> inert (constructor X p).
Proof.
  intros S. unfold inert, constructor. rewrite S. cbn. repeat split.
Qed.

Lemma step_inert
      (op : Op) (i : Instance) (w : World) (calls : list EngineCall) :
  inert i /\ engine w = calls ->
  inert (inst_of (step X op i w)) /\ engine (world_of (step X op i w)) = calls.
Proof.
  intros [(H1 & H2 & H3 & H4 & B & Mp) E]. unfold inert.
  destruct op as [|np|np|pp ps| | | |g o|rw rh|node|evt]; cbn [step].
  - rewrite did_mount_outcome, H1. cbn; repeat split; assumption.
  - rewrite receive_props_outcome, H2. cbn; repeat split; assumption.
  - cbn; repeat split; assumption.
  - rewrite did_update_outcome, H3. cbn; repeat split; assumption.
  - rewrite will_unmount_outcome, H4. cbn; repeat split; assumption.
  - unfold discard, bind. rewrite render_returns.
    cbn; repeat split; assumption.
  - cbn; repeat split; assumption.
  - unfold_methods. rewrite Mp. cbn; repeat split; assumption.
  - unfold_methods.
    split_report i rw rh;
      cbn; repeat split; assumption.
  - cbn; repeat split; assumption.
  - unfold_methods.
    destruct (strict_eq (statusCode evt) (JNum UNAUTHORIZED_ERROR_CODE)
              && negb (accessTokenInvalid (state i)));
      cbn; repeat split; assumption.
Qed.

Lemma step_inert_returns (op : Op) (i : Instance) (w : World) :
  lifecycle_or_render op = true -> inert i ->
  returned (step X op i w) = true.
Proof.
  intros L (H1 & H2 & H3 & H4 & B & Mp).
  destruct op as [|np|np|pp ps| | | |g o|rw rh|node|evt]; cbn [step];
    try discriminate.
  - rewrite did_mount_outcome, H1; reflexivity.
  - rewrite receive_props_outcome, H2; reflexivity.
  - reflexivity.
  - rewrite did_update_outcome, H3; reflexivity.
  - rewrite will_unmount_outcome, H4; reflexivity.
  - unfold discard, bind. rewrite render_returns. reflexivity.
  - reflexivity.
  - reflexivity.
  - unfold discard. apply error_handler_returns.
Qed.

(** *** Size reports and commits, case by case *)

Lemma on_resize_cases (i : Instance) (w : World) (rw rh : Z) :
  let note := notify w (reported_change X (props i) (state i) rw rh) in
  (report_returns X (props i) (state i) rw rh = true
   /\ _onResize X rw rh i w
      = Ok tt (with_state i (mkState rw rh (accessTokenInvalid (state i))))
           note)
  \/ (report_returns X (props i) (state i) rw rh = false
      /\ exists e, _onResize X rw rh i w = Throw e i note).
Proof.
  destruct w as [en co ca nx].
  unfold report_returns, reported_change, notify, with_state.
  unfold_methods. cbn [engine console callbacks next_id].
  split_report i rw rh; cbn; rewrite ?app_nil_r;
    first [ left; split; reflexivity
          | right; split; [reflexivity | eexists; reflexivity] ].
Qed.

Lemma commit_state_outcome (before i : Instance) (w : World) :
  react_commit_state X before i w =
    if state_eqb (state before) (state i) then Ok tt i w
    else call_componentDidUpdate (props i) (state before) i w.
Proof.
  unfold react_commit_state, bind, this.
  destruct (state_eqb (state before) (state i)); [reflexivity|].
  rewrite render_returns. reflexivity.
Qed.

(** C8: in an environment where [supported()] is false, mounting
    constructs no engine, whatever size the container has, and throws
    nothing (the size report permitting, which does not depend on the
    environment).  Over the whole life of the instance no operation reaches
    the engine, the four lifecycle hooks are no-ops, and neither they nor
    rendering throw.  [render] still yields the container, a [div] with key
    [map-container], and among its children the overlay region, a [div]
    with class [overlays] whose children are the caller's. *)
Theorem unsupported_environment_is_inert
        (p : Props) (node : JSVal) (box : option (Z * Z)) (w : World)
        (ops : list Op) :
  supported X = false ->
  let i0 := constructor X p in
  (engine (world_of (react_mount X node box i0 w)) = engine w
   /\ (mount_report_returns X p box = true ->
       returned (react_mount X node box i0 w) = true))
  /\ let t := run X ops i0 w in
     engine (final_world t) = engine w
     /\ (forallb lifecycle_or_render ops = true -> raised t = [])
     /\ (forall w',
           call_componentDidMount X (final_inst t) w'
           = Ok tt (final_inst t) w'
           /\ (forall newProps,
                 call_componentWillReceiveProps X newProps (final_inst t) w'
                 = Ok tt (final_inst t) w')
           /\ (forall prevProps prevState,
                 call_componentDidUpdate prevProps prevState (final_inst t) w'
                 = Ok tt (final_inst t) w')
           /\ call_componentWillUnmount (final_inst t) w'
              = Ok tt (final_inst t) w')
     /\ (forall w', exists warning,
           render X (final_inst t) w'
           = Ok (map_container (props (final_inst t))
                   [map_surface X (final_inst t);
                    overlay_container (props (final_inst t));
                    autosizer; warning])
                (final_inst t) w')
     /\ (forall w',
           let el := rendered (render X (final_inst t) w') in
           tag_of el = Some (HostTag "div")
           /\ key_of el = Some "map-container"
           /\ attr el "style"
              = Some (AObj (mapContainerStyle (props (final_inst t))))
           /\ child_with_key el "map-overlays"
              = Some (ENode (HostTag "div")
                        [("key", AVal (JStr "map-overlays"));
                         ("className", AVal (JStr "overlays"));
                         ("style", AObj OVERLAY_CONTAINER_STYLE)]
                        (children (props (final_inst t))))).
Proof.
  intros S i0.
  pose proof (constructor_inert p S) as I0. fold i0 in I0.
  split.
  { subst i0. unfold constructor. rewrite S. cbn [negb].
    unfold react_mount, bind, this. rewrite render_returns.
    cbn [_mapboxMapLoaded set_mapboxMap props state _queryParams _mapbox
         _map _mapboxMap own_componentDidMount
         own_componentWillReceiveProps own_componentDidUpdate
         own_componentWillUnmount].
    destruct box as [[bw bh]|]; cbn [mount_report_returns].
    - match goal with
      | |- context [_onResize X bw bh ?j ?ww] =>
          destruct (on_resize_cases j ww bw bh) as [[R E] | [R [e E]]];
            rewrite E; cbn [props state] in R
      end.
      + rewrite did_mount_outcome. fields.
        rewrite commit_state_outcome, did_update_outcome. fields.
        match goal with
        | |- context [state_eqb ?a ?b] => destruct (state_eqb a b)
        end; fields; auto.
      + fields. split; [reflexivity|].
        intros Hr. rewrite Hr in R. discriminate.
    - unfold ret. rewrite did_mount_outcome. fields.
      rewrite commit_state_outcome. fields.
      cbn [state_eqb st_width st_height accessTokenInvalid Z.eqb andb
           Bool.eqb]. fields. auto. }
  intros t.
  assert (K : inert (final_inst t) /\ engine (final_world t) = engine w).
  { apply (run_invariant (fun j w' => inert j /\ engine w' = engine w)
                         (fun _ => true)).
    - intros op j w' _ P. apply step_inert; exact P.
    - apply all_allowed.
    - split; [exact I0 | reflexivity]. }
  destruct K as [(H1 & H2 & H3 & H4 & B & Mp) E].
  split; [exact E|]. split.
  { intros L.
    apply (run_raises_nothing (fun j w' => inert j /\ engine w' = engine w)
                              lifecycle_or_render).
    - intros op j w' _ P. apply step_inert; exact P.
    - intros op j w' A [P _]. apply step_inert_returns; assumption.
    - exact L.
    - split; [exact I0 | reflexivity]. }
  split.
  { intros w'.
    rewrite did_mount_outcome, H1, will_unmount_outcome, H4.
    split; [reflexivity|]. split.
    - intros np. rewrite receive_props_outcome, H2. reflexivity.
    - split; [|reflexivity].
      intros pp ps. rewrite did_update_outcome, H3. reflexivity. }
  split.
  { intros w'. eexists. apply render_returns. }
  { intros w' el. subst el. split; [|split; [|split]].
    - rewrite render_returns. reflexivity.
    - rewrite render_returns. reflexivity.
    - rewrite render_returns. reflexivity.
    - apply overlays_child. }
Qed.

(** * Further properties of the component *)

Lemma issued_after (w w' : World) (calls : list EngineCall) :
  engine w' = engine w ++ calls -> issued w w' = calls.
Proof.
  intros E. unfold issued. rewrite E.
  rewrite skipn_app, skipn_all, Nat.sub_diag. reflexivity.
Qed.

Lemma strict_eq_other_than_401 (v : JSVal) :
  v <> JNum 401 -> strict_eq v (JNum UNAUTHORIZED_ERROR_CODE) = false.
Proof.
  intros N. destruct v; cbn; try reflexivity.
  apply Z.eqb_neq. intros E. apply N. rewrite E. reflexivity.
Qed.

(** ** Mounting *)

Lemma mount_outcome
      (p : Props) (node : JSVal) (box : option (Z * Z)) (w : World) :
  supported X = true ->
  mount_report_returns X p box = true ->
  react_mount X node box (constructor X p) w =
    Ok tt
       (mkInstance p (measured_state box) []
          (Ref (MapboxObj (next_id w))) (Ref (MapObj (next_id w))) node
          Proto Proto Proto Proto)
       (mkWorld
          (engine w ++
           MapboxNew (MapboxObj (next_id w))
             (mkConfig p (mapboxgl (ext_env X)) node H_mapboxMapError
                       (ext_normalizeStyle X (mapStyle p)))
           :: first_resize box (MapObj (next_id w)))
          (console w)
          (callbacks w ++ mount_reported_change X p box)
          (S (next_id w))).
Proof.
  intros S R. destruct w as [en co ca nx].
  unfold constructor. rewrite S. cbn [negb].
  unfold react_mount, bind, this. rewrite render_returns.
  cbn [_mapboxMapLoaded set_mapboxMap]. fields.
  destruct box as [[bw bh]|];
    cbn [mount_report_returns mount_reported_change measured_state] in *.
  - match goal with
    | |- context [_onResize X bw bh ?j ?ww] =>
        destruct (on_resize_cases j ww bw bh) as [[_ E] | [R' _]];
          fields; [rewrite E | rewrite R in R'; discriminate]
    end.
    rewrite did_mount_outcome. fields.
    rewrite commit_state_outcome, did_update_outcome. fields.
    unfold first_resize, state_eqb. fields. cbn [measured_state].
    fields.
    destruct (0 =? bw)%Z, (0 =? bh)%Z; cbn [negb orb andb Bool.eqb];
      unfold extend; fields; cbn [Mapbox_getMap]; rewrite <- ?app_assoc;
      reflexivity.
  - unfold ret. rewrite did_mount_outcome. fields.
    rewrite commit_state_outcome. fields.
    cbn. rewrite app_nil_r. reflexivity.
Qed.

(** X1: mounting in a supported environment, the size report
    permitting, constructs exactly one engine.  Its configuration carries
    the props, the normalized style, the DOM node React handed to the [ref]
    callback as container and [_mapboxMapError] as error handler.  When the
    AutoSizer child has reported the size of a laid-out container, that size
    is stored and the new engine is resized once, right after its
    construction; a container without layout is not reported, and then the
    construction is the only call and the state is the initial one.
    Afterwards [_mapbox] holds the new adapter and [_map] its map. *)
Theorem mount_constructs_one_engine
        (p : Props) (node : JSVal) (box : option (Z * Z)) (w : World) :
  supported X = true ->
  mount_report_returns X p box = true ->
  let o := react_mount X node box (constructor X p) w in
  returned o = true
  /\ issued w (world_of o)
     = MapboxNew (MapboxObj (next_id w))
         (mkConfig p (mapboxgl (ext_env X)) node H_mapboxMapError
                   (ext_normalizeStyle X (mapStyle p)))
       :: (match box with
           | Some (width, height) =>
               if (0 =? width)%Z && (0 =? height)%Z then []
               else [MapResize (MapObj (next_id w))]
           | None => []
           end)
  /\ _mapbox (inst_of o) = Ref (MapboxObj (next_id w))
  /\ _map (inst_of o) = Ref (Mapbox_getMap (MapboxObj (next_id w)))
  /\ state (inst_of o)
     = (match box with
        | Some (width, height) => mkState width height false
        | None => mkState 0 0 false
        end)
  /\ console (world_of o) = console w.
Proof.
  intros S R o. subst o. rewrite (mount_outcome p node box w S R).
  fields. repeat split.
  apply issued_after. fields. f_equal. f_equal.
  unfold first_resize, state_eqb.
  destruct box as [[bw bh]|]; cbn [measured_state]; fields;
    [|reflexivity].
  destruct (0 =? bw)%Z, (0 =? bh)%Z; reflexivity.
Qed.

(** X2: a mount followed by an unmount issues the construction of an
    adapter, one [resize()] of its map if a laid-out container was
    measured, and the [finalize] of that same adapter, and nothing else;
    it leaves [_mapbox], [_map] and the container reference null. *)
Theorem mount_then_unmount_pairs_finalize
        (p : Props) (node : JSVal) (box : option (Z * Z)) (w : World) :
  supported X = true ->
  mount_report_returns X p box = true ->
  let o := (react_mount X node box;; react_unmount) (constructor X p) w in
  returned o = true
  /\ (exists cfg,
        issued w (world_of o)
        = [MapboxNew (MapboxObj (next_id w)) cfg]
          ++ (match box with
              | Some (width, height) =>
                  if (0 =? width)%Z && (0 =? height)%Z then []
                  else [MapResize (MapObj (next_id w))]
              | None => []
              end)
          ++ [MapboxFinalize (MapboxObj (next_id w))])
  /\ _mapbox (inst_of o) = Null
  /\ _map (inst_of o) = Null
  /\ _mapboxMap (inst_of o) = JNull.
Proof.
  intros S R o. subst o. unfold bind.
  rewrite (mount_outcome p node box w S R).
  unfold react_unmount, bind. rewrite will_unmount_outcome. fields.
  cbn [_mapboxMapLoaded set_mapboxMap]. fields.
  split; [reflexivity|]. split; [|repeat split].
  eexists. apply issued_after.
  cbn [_mapboxMapLoaded set_mapboxMap world_of]. unfold extend. fields.
  rewrite <- app_assoc. cbn [app]. f_equal. f_equal. f_equal.
  unfold first_resize, state_eqb.
  destruct box as [[bw bh]|]; cbn [measured_state]; fields;
    [|reflexivity].
  destruct (0 =? bw)%Z, (0 =? bh)%Z; reflexivity.
Qed.

(** ** Updates *)

Lemma update_outcome_attached
      (i : Instance) (w : World) (newProps : Props)
      (mb : MapboxRef) (m : MapRef) :
  own_componentWillReceiveProps i = Proto ->
  _mapbox i = Ref mb ->
  _map i = Ref m ->
  react_update X newProps i w =
    Ok tt (inst_of (set_props newProps i w))
       (extend w
          (MapboxSetProps mb newProps ::
           if strict_neq (mapStyle newProps) (mapStyle (props i))
           then [MapSetStyle m (ext_normalizeStyle X (mapStyle newProps))
                             (negb (truthy (preventStyleDiffing (props i))))]
           else [])).
Proof.
  intros H B Mp.
  unfold react_update, bind at 1 2, this.
  rewrite receive_props_outcome, H, B, Mp.
  destruct (strict_neq (mapStyle newProps) (mapStyle (props i)));
    unfold bind at 1; cbn [set_props];
    unfold bind at 1; rewrite render_returns;
    rewrite did_update_outcome;
    cbn [own_componentDidUpdate state inst_of set_props];
    rewrite !Z.eqb_refl; cbn [negb orb];
    destruct (own_componentDidUpdate i); reflexivity.
Qed.

(** X3: every props update of a mounted component returns normally and
    first forwards the new props to the adapter through [setProps], whether
    or not the style changed; a [setStyle] follows only for a changed style.
    The new props are stored; state and handles are untouched. *)
Theorem every_update_forwards_props
        (i : Instance) (w : World) (newProps : Props)
        (mb : MapboxRef) (m : MapRef) :
  own_componentWillReceiveProps i = Proto ->
  _mapbox i = Ref mb ->
  _map i = Ref m ->
  let o := react_update X newProps i w in
  returned o = true
  /\ (exists rest,
        issued w (world_of o) = MapboxSetProps mb newProps :: rest
        /\ forallb is_setStyle rest = true
        /\ (strict_eq (mapStyle newProps) (mapStyle (props i)) = true ->
            rest = []))
  /\ props (inst_of o) = newProps
  /\ state (inst_of o) = state i
  /\ _mapbox (inst_of o) = Ref mb
  /\ _map (inst_of o) = Ref m.
Proof.
  intros H B Mp o. subst o.
  rewrite (update_outcome_attached i w newProps mb m H B Mp).
  cbn [returned world_of inst_of set_props props state _mapbox _map].
  split; [reflexivity|]. split; [|auto].
  eexists. split; [apply issued_extend|].
  unfold strict_neq.
  destruct (strict_eq (mapStyle newProps) (mapStyle (props i)));
    cbn; split; auto; discriminate.
Qed.

(** ** Error events *)

(** X4: an error event whose status code is anything but the number
    401 (another number, the string 401, or no status at all) leaves the
    instance and the world exactly as they were. *)
Theorem other_errors_are_ignored
        (evt : ErrorEvent) (i : Instance) (w : World) :
  statusCode evt <> JNum 401 ->
  _mapboxMapError evt i w = Ok tt i w.
Proof.
  intros N. apply error_ignored. left.
  apply strict_eq_other_than_401. exact N.
Qed.

(** ** Size reports *)

(** X5: a size report that arrives outside a batch.  It never writes
    to the console, and the callback behind [onViewportChange], when the
    prop is present and [MapState] accepts both sizes, is entered once with
    the view state at the new size and the view state at the stored size,
    mounted or not.  On a mounted component whose report returns, the size
    is stored (keeping [accessTokenInvalid]) and, inside the same call, the
    engine map is resized exactly when the size differs from the stored one.
    On an instance that is not mounted React drops the update: the instance
    is unchanged and the engine is not called. *)
Theorem delivered_size_report
        (i : Instance) (w : World) (width height : Z) :
  let while_mounted := react_deliver X true (_onResize X width height) i w in
  let late := react_deliver X false (_onResize X width height) i w in
  let change := reported_change X (props i) (state i) width height in
  (forall m : MapRef,
     own_componentDidUpdate i = Proto ->
     _map i = Ref m ->
     report_returns X (props i) (state i) width height = true ->
     returned while_mounted = true
     /\ state (inst_of while_mounted)
        = mkState width height (accessTokenInvalid (state i))
     /\ issued w (world_of while_mounted)
        = (if (st_width (state i) =? width)%Z
              && (st_height (state i) =? height)%Z
           then [] else [MapResize m])
     /\ callbacks (world_of while_mounted) = callbacks w ++ change
     /\ console (world_of while_mounted) = console w)
  /\ (inst_of late = i
      /\ engine (world_of late) = engine w
      /\ callbacks (world_of late) = callbacks w ++ change
      /\ console (world_of late) = console w
      /\ returned late = report_returns X (props i) (state i) width height).
Proof.
  intros while_mounted late change. subst while_mounted late change.
  unfold react_deliver, bind, this. split.
  - intros m H Mp R.
    destruct (on_resize_cases i w width height) as [[_ E] | [R' _]];
      [rewrite E | rewrite R in R'; discriminate].
    rewrite commit_state_outcome, did_update_outcome. fields.
    rewrite H, Mp. unfold state_eqb. fields. rewrite Bool.eqb_reflx.
    destruct (st_width (state i) =? width)%Z,
             (st_height (state i) =? height)%Z;
      cbn [negb orb andb]; fields;
      repeat split;
      first [ apply (issued_nothing w); reflexivity
            | apply issued_after; reflexivity ].
  - destruct i as [p s q mb m node h1 h2 h3 h4].
    match goal with
    | |- context [_onResize X width height ?j w] =>
        destruct (on_resize_cases j w width height) as [[R E] | [R [e E]]];
          rewrite E, R
    end; fields; cbn [set_state]; fields; repeat split.
Qed.

(** X6: when the [onViewportChange] prop is present and [MapState]
    throws, for the stored size or for the measured one, the exception
    leaves [_onResize] before the callback and before [setState]: the
    measurement is dropped, instance and world are unchanged. *)
Theorem failed_view_state_drops_measurement
        (i : Instance) (w : World) (width height : Z) (e : Exn) :
  truthy (onViewportChange (props i)) = true ->
  ext_getViewportProps X (props i) (st_width (state i))
                       (st_height (state i)) = inl e
  \/ ((exists v, ext_getViewportProps X (props i) (st_width (state i))
                                      (st_height (state i)) = inr v)
      /\ ext_getViewportProps X (props i) width height = inl e) ->
  _onResize X width height i w = Throw e i w.
Proof.
  intros V [Eo | [[v Eo] En]]; unfold_methods; rewrite V, Eo, ?En;
    reflexivity.
Qed.

(** ** Before the first mount *)

Lemma step_before_mount
      (op : Op) (i : Instance) (w : World) (calls : list EngineCall) :
  not_mount op = true ->
  _mapbox i = Undefined /\ _map i = Undefined /\ engine w = calls ->
  _mapbox (inst_of (step X op i w)) = Undefined
  /\ _map (inst_of (step X op i w)) = Undefined
  /\ engine (world_of (step X op i w)) = calls.
Proof.
  intros L (B & Mp & E).
  destruct op as [|np|np|pp ps| | | |g o|rw rh|node|evt]; cbn [step].
  - discriminate.
  - rewrite receive_props_outcome, B.
    destruct (own_componentWillReceiveProps i); cbn; auto.
  - cbn; auto.
  - rewrite did_update_outcome, Mp.
    destruct (own_componentDidUpdate i),
      (negb (st_width ps =? st_width (state i))%Z
       || negb (st_height ps =? st_height (state i))%Z);
      cbn; auto.
  - rewrite will_unmount_outcome, B.
    destruct (own_componentWillUnmount i); cbn; auto.
  - unfold discard, bind. rewrite render_returns. cbn; auto.
  - cbn; auto.
  - unfold_methods. rewrite Mp. cbn; auto.
  - unfold_methods.
    split_report i rw rh; cbn; auto.
  - cbn; auto.
  - unfold_methods.
    destruct (strict_eq (statusCode evt) (JNum UNAUTHORIZED_ERROR_CODE)
              && negb (accessTokenInvalid (state i))); cbn; auto.
Qed.

(** X7: until [componentDidMount] has run, in any environment and
    whatever else is dispatched to the constructed instance, the engine
    receives nothing, [getMap] returns undefined and
    [queryRenderedFeatures] throws a [TypeError]. *)
Theorem nothing_reaches_engine_before_mount
        (p : Props) (w : World) (ops : list Op) :
  forallb not_mount ops = true ->
  let t := run X ops (constructor X p) w in
  engine (final_world t) = engine w
  /\ (forall w', getMap (final_inst t) w' = Ok Undefined (final_inst t) w')
  /\ (forall geometry options w',
        queryRenderedFeatures X geometry options (final_inst t) w'
        = Throw (TypeError "queryRenderedFeatures") (final_inst t) w').
Proof.
  intros L t.
  assert (K : _mapbox (final_inst t) = Undefined
              /\ _map (final_inst t) = Undefined
              /\ engine (final_world t) = engine w).
  { apply (run_invariant
             (fun j w' => _mapbox j = Undefined /\ _map j = Undefined
                          /\ engine w' = engine w)
             not_mount).
    - intros op j w' A P. apply step_before_mount; assumption.
    - exact L.
    - cbn; auto. }
  destruct K as (_ & K2 & K3).
  split; [exact K3|]. split.
  - intros w'. unfold_methods. rewrite K2. reflexivity.
  - intros g o w'. unfold_methods. rewrite K2. reflexivity.
Qed.

(** ** Sequences of operations *)

Lemma preserves_bind {A B} (P : Instance -> World -> Prop)
      (m : M A) (k : A -> M B) :
  preserves P m -> (forall a, preserves P (k a)) -> preserves P (bind m k).
Proof.
  unfold preserves, bind. intros Hm Hk i w Hp.
  specialize (Hm i w Hp).
  destruct (m i w) as [a i' w'|e i' w']; cbn in *;
    [apply Hk; exact Hm | exact Hm].
Qed.

Lemma preserves_ret {A} (P : Instance -> World -> Prop) (a : A) :
  preserves P (ret a).
Proof. intros i w Hp. exact Hp. Qed.

Lemma preserves_this (P : Instance -> World -> Prop) : preserves P this.
Proof. intros i w Hp. exact Hp. Qed.

Lemma preserves_undiscarded {A} (P : Instance -> World -> Prop) (m : M A) :
  preserves P (discard m) -> preserves P m.
Proof.
  unfold preserves, discard, bind, ret. intros H i w Hp.
  specialize (H i w Hp). destruct (m i w); exact H.
Qed.

Lemma safe_bind {A B} (P : Instance -> World -> Prop)
      (m : M A) (k : A -> M B) :
  safe P m -> (forall a, safe P (k a)) -> safe P (bind m k).
Proof.
  unfold safe, bind. intros Hm Hk i w Hp.
  destruct (Hm i w Hp) as [R Q].
  destruct (m i w) as [a i' w'|e i' w']; cbn in *;
    [apply Hk; exact Q | discriminate].
Qed.

Lemma safe_ret {A} (P : Instance -> World -> Prop) (a : A) : safe P (ret a).
Proof. intros i w Hp. split; [reflexivity | exact Hp]. Qed.

Lemma safe_this (P : Instance -> World -> Prop) : safe P this.
Proof. intros i w Hp. split; [reflexivity | exact Hp]. Qed.

Lemma safe_undiscarded {A} (P : Instance -> World -> Prop) (m : M A) :
  safe P (discard m) -> safe P m.
Proof.
  unfold safe, discard, bind, ret. intros H i w Hp.
  specialize (H i w Hp). destruct (m i w); exact H.
Qed.

(** What React does with a mounted instance is a sequence of method calls,
    so what every method call keeps, every event keeps. *)
Lemma commit_state_preserves (P : Instance -> World -> Prop)
      (before : Instance) :
  (forall op, preserves P (step X op)) ->
  preserves P (react_commit_state X before).
Proof.
  intros H. unfold react_commit_state.
  apply preserves_bind; [apply preserves_this|]. intros j.
  destruct (state_eqb (state before) (state j)); [apply preserves_ret|].
  apply preserves_bind.
  - apply preserves_undiscarded. exact (H CallRender).
  - intros _. exact (H (CallComponentDidUpdate (props j) (state before))).
Qed.

Lemma react_step_preserves (P : Instance -> World -> Prop) (e : Event) :
  (forall op, preserves P (step X op)) ->
  preserves P (react_step X e true).
Proof.
  intros H. destruct e as [np|rw rh|evt| |g o|]; cbn [react_step].
  - unfold react_update.
    apply preserves_bind; [apply preserves_this|]. intros j.
    apply preserves_bind;
      [exact (H (CallComponentWillReceiveProps np))|]. intros _.
    apply preserves_bind; [exact (H (StoreProps np))|]. intros _.
    apply preserves_bind;
      [apply preserves_undiscarded; exact (H CallRender)|]. intros _.
    exact (H (CallComponentDidUpdate (props j) (state j))).
  - unfold react_deliver.
    apply preserves_bind; [apply preserves_this|]. intros before.
    apply preserves_bind; [exact (H (CallOnResize rw rh))|]. intros _.
    apply commit_state_preserves. exact H.
  - unfold react_deliver.
    apply preserves_bind; [apply preserves_this|]. intros before.
    apply preserves_bind; [exact (H (CallMapboxMapError evt))|]. intros _.
    apply commit_state_preserves. exact H.
  - exact (H CallGetMap).
  - exact (H (CallQueryRenderedFeatures g o)).
  - unfold react_unmount.
    apply preserves_bind; [exact (H CallComponentWillUnmount)|]. intros _.
    exact (H (CallMapboxMapLoaded JNull)).
Qed.

Lemma commit_state_safe (P : Instance -> World -> Prop)
      (before : Instance) :
  (forall op, not_unmount op = true -> op_props_ok X op ->
              safe P (step X op)) ->
  safe P (react_commit_state X before).
Proof.
  intros H. unfold react_commit_state.
  apply safe_bind; [apply safe_this|]. intros j.
  destruct (state_eqb (state before) (state j)); [apply safe_ret|].
  apply safe_bind.
  - apply safe_undiscarded. exact (H CallRender eq_refl I).
  - intros _.
    exact (H (CallComponentDidUpdate (props j) (state before)) eq_refl I).
Qed.

Lemma react_step_safe (P : Instance -> World -> Prop) (e : Event) :
  (forall op, not_unmount op = true -> op_props_ok X op ->
              safe P (step X op)) ->
  stays_mounted e = true ->
  event_props_ok X e ->
  safe P (react_step X e true).
Proof.
  intros H L G. destruct e as [np|rw rh|evt| |g o|]; cbn [react_step].
  - unfold react_update.
    apply safe_bind; [apply safe_this|]. intros j.
    apply safe_bind;
      [exact (H (CallComponentWillReceiveProps np) eq_refl I)|]. intros _.
    apply safe_bind; [exact (H (StoreProps np) eq_refl G)|]. intros _.
    apply safe_bind;
      [apply safe_undiscarded; exact (H CallRender eq_refl I)|]. intros _.
    exact (H (CallComponentDidUpdate (props j) (state j)) eq_refl I).
  - unfold react_deliver.
    apply safe_bind; [apply safe_this|]. intros before.
    apply safe_bind; [exact (H (CallOnResize rw rh) eq_refl I)|]. intros _.
    apply commit_state_safe. exact H.
  - unfold react_deliver.
    apply safe_bind; [apply safe_this|]. intros before.
    apply safe_bind; [exact (H (CallMapboxMapError evt) eq_refl I)|].
    intros _. apply commit_state_safe. exact H.
  - exact (H CallGetMap eq_refl I).
  - exact (H (CallQueryRenderedFeatures g o) eq_refl I).
  - discriminate.
Qed.

Lemma react_run_step
      (e : Event) (rest : list Event) (is_mounted : bool)
      (i : Instance) (w : World) :
  final_inst (react_run X (e :: rest) is_mounted i w)
  = final_inst (react_run X rest (still_mounted e is_mounted)
                  (inst_of (react_step X e is_mounted i w))
                  (world_of (react_step X e is_mounted i w)))
  /\ final_world (react_run X (e :: rest) is_mounted i w)
     = final_world (react_run X rest (still_mounted e is_mounted)
                      (inst_of (react_step X e is_mounted i w))
                      (world_of (react_step X e is_mounted i w)))
  /\ raised (react_run X (e :: rest) is_mounted i w)
     = (match react_step X e is_mounted i w with
        | Ok _ _ _ => []
        | Throw x _ _ => [x]
        end)
       ++ raised (react_run X rest (still_mounted e is_mounted)
                    (inst_of (react_step X e is_mounted i w))
                    (world_of (react_step X e is_mounted i w))).
Proof.
  cbn [react_run]. destruct (react_step X e is_mounted i w); cbn; auto.
Qed.

(** A property kept by every method call is kept by every run of events on
    a mounted instance. *)
Lemma react_run_invariant (P : Instance -> World -> Prop) :
  (forall op, preserves P (step X op)) ->
  forall events i w,
    forallb stays_mounted events = true -> P i w ->
    P (final_inst (react_run X events true i w))
      (final_world (react_run X events true i w)).
Proof.
  intros H events; induction events as [|e rest IH]; intros i w L Hp.
  - exact Hp.
  - cbn [forallb] in L. apply andb_true_iff in L as [L1 L2].
    destruct (react_run_step e rest true i w) as (Ei & Ew & _).
    rewrite Ei, Ew.
    replace (still_mounted e true) with true
      by (destruct e; try reflexivity; discriminate).
    apply IH; [exact L2|]. apply react_step_preserves; assumption.
Qed.

Lemma run_safe (P : Instance -> World -> Prop) :
  (forall op, not_unmount op = true -> op_props_ok X op ->
              safe P (step X op)) ->
  forall ops i w,
    forallb not_unmount ops = true -> Forall (op_props_ok X) ops -> P i w ->
    raised (run X ops i w) = []
    /\ P (final_inst (run X ops i w)) (final_world (run X ops i w)).
Proof.
  intros H ops; induction ops as [|op rest IH]; intros i w L G Hp.
  - split; [reflexivity | exact Hp].
  - cbn [forallb] in L. apply andb_true_iff in L as [L1 L2].
    inversion G as [|? ? G1 G2]; subst.
    destruct (run_step op rest i w) as (Ei & Ew & Er).
    rewrite Ei, Ew, Er.
    destruct (H op L1 G1 i w Hp) as [R Q].
    destruct (IH _ _ L2 G2 Q) as [R' Q'].
    rewrite R'. split; [|exact Q'].
    destruct (step X op i w); [reflexivity | discriminate].
Qed.

Lemma react_run_safe (P : Instance -> World -> Prop) :
  (forall op, not_unmount op = true -> op_props_ok X op ->
              safe P (step X op)) ->
  forall events i w,
    forallb stays_mounted events = true ->
    Forall (event_props_ok X) events -> P i w ->
    raised (react_run X events true i w) = []
    /\ P (final_inst (react_run X events true i w))
         (final_world (react_run X events true i w)).
Proof.
  intros H events; induction events as [|e rest IH]; intros i w L G Hp.
  - split; [reflexivity | exact Hp].
  - cbn [forallb] in L. apply andb_true_iff in L as [L1 L2].
    inversion G as [|? ? G1 G2]; subst.
    destruct (react_run_step e rest true i w) as (Ei & Ew & Er).
    rewrite Ei, Ew, Er.
    replace (still_mounted e true) with true
      by (destruct e; try reflexivity; discriminate).
    destruct (react_step_safe P e H L1 G1 i w Hp) as [R Q].
    destruct (IH _ _ L2 G2 Q) as [R' Q'].
    rewrite R'. split; [|exact Q'].
    destruct (react_step X e true i w); [reflexivity | discriminate].
Qed.

(** ** While mounted *)

Lemma attached_handles (i : Instance) :
  attached i = true -> exists mb m, _mapbox i = Ref mb /\ _map i = Ref m.
Proof.
  unfold attached. destruct (_mapbox i), (_map i); try discriminate.
  intros _. eauto.
Qed.

Lemma step_attached (op : Op) :
  not_unmount op = true ->
  op_props_ok X op ->
  safe (fun i _ => attached i = true /\ reports_return X (props i))
       (step X op).
Proof.
  intros L G i w [A T].
  destruct (attached_handles i A) as (mb & m & B & Mp).
  unfold attached in *.
  destruct op as [|np|np|pp ps| | | |g o|rw rh|node|evt]; cbn [step].
  - rewrite did_mount_outcome.
    destruct (own_componentDidMount i); cbn; auto.
  - rewrite receive_props_outcome, B, Mp.
    destruct (own_componentWillReceiveProps i),
      (strict_neq (mapStyle np) (mapStyle (props i))); cbn; auto.
  - cbn. cbn in G. auto.
  - rewrite did_update_outcome, Mp.
    destruct (own_componentDidUpdate i),
      (negb (st_width ps =? st_width (state i))%Z
       || negb (st_height ps =? st_height (state i))%Z);
      cbn; auto.
  - discriminate.
  - unfold discard, bind. rewrite render_returns. cbn; auto.
  - cbn; auto.
  - unfold_methods. rewrite Mp. cbn. rewrite B, Mp. auto.
  - destruct (on_resize_cases i w rw rh) as [[_ E] | [R _]];
      [rewrite E | rewrite (T (state i) rw rh) in R; discriminate].
    fields. auto.
  - cbn; auto.
  - unfold_methods.
    destruct (strict_eq (statusCode evt) (JNum UNAUTHORIZED_ERROR_CODE)
              && negb (accessTokenInvalid (state i))); cbn; auto.
Qed.

(** X8: while both handles hold an object, that is between
    [componentDidMount] and [componentWillUnmount], nothing raises an
    exception, neither the methods called in any order nor the events as
    React delivers them, provided every size report returns for the props
    the instance has and receives: [MapState] accepts them and
    [onViewportChange], when given, is a function that returns.  And the
    handles keep holding an object. *)
Theorem mounted_component_never_raises
        (i : Instance) (w : World) (ops : list Op) (events : list Event) :
  attached i = true ->
  reports_return X (props i) ->
  forallb not_unmount ops = true ->
  Forall (op_props_ok X) ops ->
  forallb stays_mounted events = true ->
  Forall (event_props_ok X) events ->
  (raised (run X ops i w) = []
   /\ attached (final_inst (run X ops i w)) = true)
  /\ (raised (react_run X events true i w) = []
      /\ attached (final_inst (react_run X events true i w)) = true).
Proof.
  intros A T L G L' G'. split.
  - destruct (run_safe
                (fun j _ => attached j = true /\ reports_return X (props j))
                step_attached ops i w L G (conj A T)) as [R [Q _]].
    auto.
  - destruct (react_run_safe
                (fun j _ => attached j = true /\ reports_return X (props j))
                step_attached events i w L' G' (conj A T)) as [R [Q _]].
    auto.
Qed.

(** ** The console over a lifetime *)

Lemma step_flag_and_console (op : Op) (i : Instance) (w : World) :
  (accessTokenInvalid (state (inst_of (step X op i w)))
   = accessTokenInvalid (state i)
   /\ console (world_of (step X op i w)) = console w)
  \/ (accessTokenInvalid (state i) = false
      /\ accessTokenInvalid (state (inst_of (step X op i w))) = true
      /\ console (world_of (step X op i w))
         = console w ++ [NO_TOKEN_WARNING]).
Proof.
  destruct op as [|np|np|pp ps| | | |g o|rw rh|node|evt]; cbn [step].
  - left. rewrite did_mount_outcome.
    destruct (own_componentDidMount i); cbn; auto.
  - left. rewrite receive_props_outcome.
    destruct (own_componentWillReceiveProps i), (_mapbox i),
      (strict_neq (mapStyle np) (mapStyle (props i))), (_map i);
      cbn; auto.
  - left. cbn; auto.
  - left. rewrite did_update_outcome.
    destruct (own_componentDidUpdate i),
      (negb (st_width ps =? st_width (state i))%Z
       || negb (st_height ps =? st_height (state i))%Z), (_map i);
      cbn; auto.
  - left. rewrite will_unmount_outcome.
    destruct (own_componentWillUnmount i), (_mapbox i); cbn; auto.
  - left. unfold discard, bind. rewrite render_returns. cbn; auto.
  - left. cbn; auto.
  - left. unfold_methods. destruct (_map i); cbn; auto.
  - left. unfold_methods.
    split_report i rw rh; cbn; auto.
  - left. cbn; auto.
  - destruct (strict_eq (statusCode evt) (JNum UNAUTHORIZED_ERROR_CODE))
      eqn:S.
    + destruct (accessTokenInvalid (state i)) eqn:F.
      * left. rewrite error_ignored by (right; exact F). cbn; auto.
      * right. apply strict_eq_truthy_401 in S.
        destruct (unauthorized_first_time evt i w S F) as (i' & E & A & _).
        rewrite E. cbn; auto.
    + left. rewrite error_ignored by (left; exact S). cbn; auto.
Qed.

(** An event that reaches an instance React no longer has mounted. *)
Lemma late_step (e : Event) (i : Instance) (w : World) :
  inst_of (react_step X e false i w) = i
  /\ console (world_of (react_step X e false i w))
     = console w
       ++ (if is_unauthorized e && negb (accessTokenInvalid (state i))
           then [NO_TOKEN_WARNING] else []).
Proof.
  destruct e as [np|rw rh|evt| |g o|]; cbn [react_step is_unauthorized andb].
  - cbn. rewrite app_nil_r. auto.
  - unfold react_deliver, bind, this.
    destruct i as [p s q mb m node h1 h2 h3 h4].
    match goal with
    | |- context [_onResize X rw rh ?j w] =>
        destruct (on_resize_cases j w rw rh) as [[_ E] | [_ [x E]]];
          rewrite E
    end; fields; cbn [set_state]; fields; rewrite app_nil_r; auto.
  - unfold react_deliver, bind, this.
    destruct (strict_eq (statusCode evt) (JNum UNAUTHORIZED_ERROR_CODE))
      eqn:S.
    + destruct (accessTokenInvalid (state i)) eqn:F.
      * rewrite error_ignored by (right; exact F).
        destruct i; cbn in *. rewrite app_nil_r. auto.
      * apply strict_eq_truthy_401 in S.
        destruct (unauthorized_first_time evt i w S F)
          as (i' & E & _ & P & Mp & B).
        rewrite E. cbn [negb].
        unfold _mapboxMapError in E. revert E. unfold_methods.
        rewrite S. cbn. rewrite F. cbn. intros E. injection E as <-.
        destruct i; cbn in *. auto.
    + rewrite error_ignored by (left; exact S).
      destruct i; cbn in *. rewrite app_nil_r. auto.
  - cbn. rewrite app_nil_r. auto.
  - unfold_methods. destruct (_map i); cbn; rewrite app_nil_r; auto.
  - cbn. rewrite app_nil_r. auto.
Qed.

Lemma late_run (events : list Event) (i : Instance) (w : World) :
  final_inst (react_run X events false i w) = i
  /\ console (final_world (react_run X events false i w))
     = console w
       ++ (if accessTokenInvalid (state i) then []
           else repeat NO_TOKEN_WARNING
                       (List.length (filter is_unauthorized events))).
Proof.
  revert w. induction events as [|e rest IH]; intros w.
  - cbn. destruct (accessTokenInvalid (state i)); rewrite app_nil_r; auto.
  - destruct (react_run_step e rest false i w) as (Ei & Ew & _).
    rewrite Ei, Ew.
    replace (still_mounted e false) with false by (destruct e; reflexivity).
    destruct (late_step e i w) as [Li Lc]. rewrite Li.
    destruct (IH (world_of (react_step X e false i w))) as [Ri Rc].
    split; [exact Ri|]. rewrite Rc, Lc. cbn [filter].
    destruct (accessTokenInvalid (state i)), (is_unauthorized e);
      cbn [andb negb List.length repeat];
      rewrite <- ?app_assoc, ?app_nil_r; reflexivity.
Qed.

(** X9: while an instance is mounted, whatever events reach it, the
    component writes at most one line to the console: the token warning,
    present exactly when [accessTokenInvalid] has been set.  Once the
    instance is unmounted React drops its updates, so no event changes the
    instance any more; if the flag was not set by then, every late 401
    writes the warning again. *)
Theorem console_warns_once_while_mounted
        (i : Instance) (w : World) (events late : list Event) :
  (accessTokenInvalid (state i) = false ->
   forallb stays_mounted events = true ->
   let t := react_run X events true i w in
   console (final_world t)
   = console w ++ (if accessTokenInvalid (state (final_inst t))
                   then [NO_TOKEN_WARNING] else []))
  /\ (let t := react_run X late false i w in
      final_inst t = i
      /\ console (final_world t)
         = console w
           ++ (if accessTokenInvalid (state i) then []
               else repeat NO_TOKEN_WARNING
                           (List.length (filter is_unauthorized late)))).
Proof.
  split; [|apply late_run].
  intros F L t.
  apply (react_run_invariant
           (fun j w' =>
              console w'
              = console w ++ (if accessTokenInvalid (state j)
                              then [NO_TOKEN_WARNING] else []))).
  - intros op j w' P.
    destruct (step_flag_and_console op j w') as [[F' C] | (F0 & F1 & C)].
    + rewrite F', C. exact P.
    + rewrite F1, C, P, F0, app_nil_r. reflexivity.
  - exact L.
  - rewrite F, app_nil_r. reflexivity.
Qed.

(** ** The lifetime of the adapter *)

Lemma replay_app (l l' : list EngineCall) (s : option EngineState) :
  replay (l ++ l') s = replay l' (replay l s).
Proof. unfold replay. apply fold_left_app. Qed.

Lemma mem_head (h : nat) (l : list nat) : mem h (h :: l) = true.
Proof. unfold mem. cbn. rewrite Nat.eqb_refl. reflexivity. Qed.

(** Calls to a live adapter that neither construct nor finalize leave the
    lifetimes as they are. *)
Lemma replay_plain (calls : list EngineCall) (s : EngineState) (h : nat) :
  mem h (live s) = true ->
  (forall c, In c calls ->
             target c = h
             /\ engine_step s c
                = if mem (target c) (live s) then Some s else None) ->
  replay calls (Some s) = Some s.
Proof.
  intros Hl. induction calls as [|c rest IH]; intros Hc; [reflexivity|].
  destruct (Hc c (or_introl eq_refl)) as [Ht Hs].
  unfold replay. cbn [fold_left]. rewrite Hs, Ht, Hl.
  apply IH. intros c' Hin. apply Hc. right. exact Hin.
Qed.

Lemma in_step_handles (i : Instance) (h : nat) :
  in_step i = true ->
  _mapbox i = Ref (MapboxObj h) ->
  _map i = Ref (MapObj h).
Proof.
  unfold in_step. intros I B. rewrite B in I.
  destruct (_map i) as [| |[b]]; try discriminate.
  apply Nat.eqb_eq in I. subst. reflexivity.
Qed.

Lemma in_step_map (i : Instance) (h : nat) :
  in_step i = true ->
  _map i = Ref (MapObj h) ->
  _mapbox i = Ref (MapboxObj h).
Proof.
  unfold in_step. intros I Mp. rewrite Mp in I.
  destruct (_mapbox i) as [| |[a]]; try discriminate.
  apply Nat.eqb_eq in I. subst. reflexivity.
Qed.

Lemma tracked_transfer (i i' : Instance) (w w' : World) :
  _mapbox i' = _mapbox i ->
  _map i' = _map i ->
  engine w' = engine w ->
  next_id w' = next_id w ->
  tracked i w -> tracked i' w'.
Proof.
  unfold tracked, in_step. intros B Mp E N K.
  rewrite B, Mp, E, N. exact K.
Qed.

Lemma tracked_calls
      (i : Instance) (w : World) (h : nat) (calls : list EngineCall) :
  tracked i w ->
  _mapbox i = Ref (MapboxObj h) ->
  (forall c, In c calls ->
             target c = h
             /\ forall s, engine_step s c
                          = if mem (target c) (live s) then Some s
                            else None) ->
  tracked i (extend w calls).
Proof.
  intros (s & R & I & Hl & Hu) B Hc.
  exists s. unfold extend. cbn [engine next_id].
  rewrite replay_app, R.
  repeat split; auto.
  apply (replay_plain calls s h (Hl h B)).
  intros c Hin. destruct (Hc c Hin) as [Ht Hs]. split; [exact Ht | apply Hs].
Qed.

Lemma step_tracked (op : Op) (i : Instance) (w : World) :
  tracked i w ->
  tracked (inst_of (step X op i w)) (world_of (step X op i w)).
Proof.
  intros K.
  assert (I : in_step i = true) by (destruct K as (s & _ & I & _); exact I).
  destruct op as [|np|np|pp ps| | | |g o|rw rh|node|evt]; cbn [step].
  - rewrite did_mount_outcome.
    destruct (own_componentDidMount i); [|exact K].
    cbn [inst_of world_of]. destruct K as (s & R & _ & Hl & Hu).
    exists (mkEngineState (next_id w :: live s) (next_id w :: used s)).
    cbn [engine next_id _mapbox _map live used].
    rewrite replay_app, R. unfold replay. cbn [fold_left engine_step used].
    destruct (mem (next_id w) (used s)) eqn:Mu;
      [apply Hu in Mu; lia|].
    split; [reflexivity|]. split.
    { unfold in_step. cbn. apply Nat.eqb_refl. }
    split.
    { intros h E. injection E as <-. apply mem_head. }
    { intros h Mh. unfold mem in Mh. cbn [existsb] in Mh.
      apply orb_true_iff in Mh as [Mh | Mh].
      - apply Nat.eqb_eq in Mh. lia.
      - apply Hu in Mh. lia. }
  - rewrite receive_props_outcome.
    destruct (own_componentWillReceiveProps i); [|exact K].
    destruct (_mapbox i) as [| |[h]] eqn:B; try exact K.
    rewrite (in_step_handles i h I B).
    destruct (strict_neq (mapStyle np) (mapStyle (props i)));
      cbn [inst_of world_of]; apply (tracked_calls i w h); auto.
    + intros c [<- | [<- | []]]; split; reflexivity.
    + intros c [<- | []]; split; reflexivity.
  - apply (tracked_transfer i _ w _); [reflexivity.. | exact K].
  - rewrite did_update_outcome.
    destruct (own_componentDidUpdate i); [|exact K].
    destruct (negb (st_width ps =? st_width (state i))%Z
              || negb (st_height ps =? st_height (state i))%Z); [|exact K].
    destruct (_map i) as [| |[h]] eqn:Mp; try exact K.
    cbn [inst_of world_of].
    apply (tracked_calls i w h); auto using in_step_map.
    intros c [<- | []]; split; reflexivity.
  - rewrite will_unmount_outcome.
    destruct (own_componentWillUnmount i); [|exact K].
    destruct (_mapbox i) as [| |[h]] eqn:B; try exact K.
    cbn [inst_of world_of]. destruct K as (s & R & _ & Hl & Hu).
    exists (mkEngineState (filter (fun x => negb (x =? h)%nat) (live s))
                          (used s)).
    unfold extend. cbn [engine next_id _mapbox _map live used].
    rewrite replay_app, R. unfold replay. cbn [fold_left engine_step].
    rewrite (Hl h B).
    split; [reflexivity|]. split; [reflexivity|]. split.
    { intros h' E. discriminate. }
    { exact Hu. }
  - unfold discard, bind. rewrite render_returns. exact K.
  - unfold_methods. exact K.
  - unfold_methods.
    destruct (_map i) as [| |[h]] eqn:Mp; try exact K.
    cbn [inst_of world_of].
    apply (tracked_calls i w h [MapQueryRenderedFeatures (MapObj h) g _]);
      auto using in_step_map.
    intros c [<- | []]; split; reflexivity.
  - unfold_methods.
    split_report i rw rh;
      cbn [inst_of world_of];
      first [exact K
            | apply (tracked_transfer i _ w _); [reflexivity.. | exact K]].
  - apply (tracked_transfer i _ w _); [reflexivity.. | exact K].
  - unfold_methods.
    destruct (strict_eq (statusCode evt) (JNum UNAUTHORIZED_ERROR_CODE)
              && negb (accessTokenInvalid (state i)));
      cbn [inst_of world_of];
      first [exact K
            | apply (tracked_transfer i _ w _); [reflexivity.. | exact K]].
Qed.

Lemma constructor_tracked (p : Props) (w : World) :
  engine w = [] -> tracked (constructor X p) w.
Proof.
  intros E. exists (mkEngineState [] []). rewrite E.
  repeat split; try reflexivity; cbn; intros; discriminate.
Qed.

(** X10: whatever is dispatched to an instance from its construction
    on, in whatever order, the calls the engine receives respect the
    lifetime of each adapter: none before its construction, none after its
    [finalize], no second [finalize].  And [_mapbox] and [_map] always go
    together: both undefined, both null, or an adapter and its own map. *)
Theorem engine_lifetime_is_respected
        (p : Props) (w : World) (ops : list Op) :
  engine w = [] ->
  let t := run X ops (constructor X p) w in
  disciplined (engine (final_world t)) = true
  /\ in_step (final_inst t) = true.
Proof.
  intros E t.
  assert (K : tracked (final_inst t) (final_world t)).
  { apply (run_invariant tracked (fun _ => true)).
    - intros op j w' _ P. apply step_tracked; exact P.
    - apply all_allowed.
    - apply constructor_tracked; exact E. }
  destruct K as (s & R & I & _).
  unfold disciplined. rewrite R. auto.
Qed.

(** ** The container's style *)

Lemma obj_get_set_same (o : JSObject) (k : string) (v : JSVal) :
  obj_get (obj_set o k v) k = v.
Proof.
  induction o as [|[k' v'] rest IH]; cbn.
  - rewrite String.eqb_refl. reflexivity.
  - destruct (k' =? k) eqn:E; cbn.
    + rewrite String.eqb_refl. reflexivity.
    + rewrite E. exact IH.
Qed.

Lemma obj_get_set_other (o : JSObject) (k k' : string) (v : JSVal) :
  k <> k' -> obj_get (obj_set o k v) k' = obj_get o k'.
Proof.
  intros N. induction o as [|[a b] rest IH]; cbn.
  - apply String.eqb_neq in N. rewrite N. reflexivity.
  - destruct (a =? k) eqn:E; cbn.
    + apply String.eqb_eq in E. subst a.
      apply String.eqb_neq in N. rewrite N. reflexivity.
    + destruct (a =? k'); [reflexivity | exact IH].
Qed.

Lemma obj_set_fresh (o : JSObject) (k : string) (v : JSVal) :
  ~ In k (keys o) -> obj_set o k v = o ++ [(k, v)].
Proof.
  induction o as [|[a b] rest IH]; cbn; intros N; [reflexivity|].
  destruct (a =? k) eqn:E.
  - apply String.eqb_eq in E. elim N. left. exact E.
  - rewrite IH; [reflexivity|]. intros Hin. apply N. right. exact Hin.
Qed.

Lemma obj_assign_disjoint (source target : JSObject) :
  NoDup (keys (target ++ source)) ->
  obj_assign target source = target ++ source.
Proof.
  revert target.
  induction source as [|[k v] rest IH]; intros target D; cbn.
  - rewrite app_nil_r. reflexivity.
  - unfold obj_assign in *. cbn [fold_left fst snd].
    assert (F : ~ In k (keys target)).
    { unfold keys in D. rewrite map_app in D. cbn in D.
      apply NoDup_remove_2 in D. intros Hin. apply D.
      apply in_or_app. left. exact Hin. }
    rewrite (obj_set_fresh target k v F).
    rewrite IH; rewrite <- app_assoc; [reflexivity | exact D].
Qed.

(** The object the container style starts from. *)
Lemma sized_style (p : Props) :
  obj_assign (obj_assign [] (style p))
             [("width", width p); ("height", height p)]
  = obj_set (obj_set (obj_assign [] (style p)) "width" (width p))
            "height" (height p).
Proof. reflexivity. Qed.

Lemma sized_style_get (p : Props) (k : string) :
  k <> "width" -> k <> "height" ->
  obj_get (obj_assign (obj_assign [] (style p))
                      [("width", width p); ("height", height p)]) k
  = obj_get (obj_assign [] (style p)) k.
Proof.
  intros Nw Nh. rewrite sized_style.
  rewrite obj_get_set_other by congruence.
  rewrite obj_get_set_other by congruence.
  reflexivity.
Qed.

(** X11: whatever [style] the caller passes, the container element
    gets the [width] and [height] props as its width and height, and a
    position that is truthy and not [static]. *)
Theorem container_is_always_positioned (p : Props) :
  let s := mapContainerStyle p in
  obj_get s "width" = width p
  /\ obj_get s "height" = height p
  /\ truthy (obj_get s "position") = true
  /\ strict_eq (obj_get s "position") (JStr "static") = false.
Proof.
  intros s. subst s. unfold mapContainerStyle.
  set (s0 := obj_assign (obj_assign [] (style p))
                        [("width", width p); ("height", height p)]).
  assert (W : obj_get s0 "width" = width p).
  { subst s0. rewrite sized_style.
    rewrite obj_get_set_other by discriminate.
    apply obj_get_set_same. }
  assert (T : obj_get s0 "height" = height p).
  { subst s0. rewrite sized_style. apply obj_get_set_same. }
  destruct (negb (truthy (obj_get s0 "position"))
            || strict_eq (obj_get s0 "position") (JStr "static")) eqn:C.
  - rewrite !obj_get_set_other by discriminate.
    rewrite obj_get_set_same. auto.
  - apply orb_false_iff in C as [C1 C2].
    apply negb_false_iff in C1. auto.
Qed.

(** X12: for a [style] object (its keys are distinct) the container
    keeps every property of the caller's style other than width, height
    and position, and keeps the caller's position too unless it is falsy
    or [static], in which case the position is [relative]. *)
Theorem container_keeps_caller_style (p : Props) :
  NoDup (keys (style p)) ->
  let s := mapContainerStyle p in
  let position := obj_get (style p) "position" in
  (forall k, k <> "width" -> k <> "height" -> k <> "position" ->
             obj_get s k = obj_get (style p) k)
  /\ (truthy position = true ->
      strict_eq position (JStr "static") = false ->
      obj_get s "position" = position)
  /\ (truthy position = false \/ strict_eq position (JStr "static") = true ->
      obj_get s "position" = JStr "relative").
Proof.
  intros D s position. subst s position. unfold mapContainerStyle.
  assert (G : forall k, k <> "width" -> k <> "height" ->
                        obj_get (obj_assign (obj_assign [] (style p))
                                   [("width", width p); ("height", height p)])
                                k
                        = obj_get (style p) k).
  { intros k Nw Nh. rewrite (sized_style_get p k Nw Nh).
    rewrite (obj_assign_disjoint (style p) []); [reflexivity | exact D]. }
  rewrite (G "position") by discriminate.
  split; [|split].
  - intros k Nw Nh Np.
    destruct (negb (truthy (obj_get (style p) "position"))
              || strict_eq (obj_get (style p) "position") (JStr "static")).
    + rewrite obj_get_set_other by congruence. apply G; assumption.
    + apply G; assumption.
  - intros Tp Sp. rewrite Tp, Sp. cbn [negb orb].
    apply G; discriminate.
  - intros [Tp | Sp].
    + rewrite Tp. cbn [negb orb]. apply obj_get_set_same.
    + rewrite Sp, orb_true_r. apply obj_get_set_same.
Qed.

(** ** What the component leaves alone *)

Lemma step_keeps_props (op : Op) (i : Instance) (w : World) :
  not_store op = true ->
  props (inst_of (step X op i w)) = props i.
Proof.
  intros L.
  destruct op as [|np|np|pp ps| | | |g o|rw rh|node|evt]; cbn [step].
  - rewrite did_mount_outcome.
    destruct (own_componentDidMount i); reflexivity.
  - rewrite receive_props_keeps_instance. reflexivity.
  - discriminate.
  - rewrite did_update_outcome.
    destruct (own_componentDidUpdate i),
      (negb (st_width ps =? st_width (state i))%Z
       || negb (st_height ps =? st_height (state i))%Z), (_map i);
      reflexivity.
  - rewrite will_unmount_outcome.
    destruct (own_componentWillUnmount i), (_mapbox i); reflexivity.
  - unfold discard, bind. rewrite render_returns. reflexivity.
  - reflexivity.
  - unfold_methods. destruct (_map i); reflexivity.
  - unfold_methods.
    split_report i rw rh;
      reflexivity.
  - reflexivity.
  - unfold_methods.
    destruct (strict_eq (statusCode evt) (JNum UNAUTHORIZED_ERROR_CODE)
              && negb (accessTokenInvalid (state i))); reflexivity.
Qed.

Lemma step_keeps_size (op : Op) (i : Instance) (w : World) :
  not_resize op = true ->
  st_width (state (inst_of (step X op i w))) = st_width (state i)
  /\ st_height (state (inst_of (step X op i w))) = st_height (state i).
Proof.
  intros L.
  destruct op as [|np|np|pp ps| | | |g o|rw rh|node|evt]; cbn [step].
  - rewrite did_mount_outcome.
    destruct (own_componentDidMount i); cbn; auto.
  - rewrite receive_props_keeps_instance. auto.
  - cbn; auto.
  - rewrite did_update_outcome.
    destruct (own_componentDidUpdate i),
      (negb (st_width ps =? st_width (state i))%Z
       || negb (st_height ps =? st_height (state i))%Z), (_map i);
      cbn; auto.
  - rewrite will_unmount_outcome.
    destruct (own_componentWillUnmount i), (_mapbox i); cbn; auto.
  - unfold discard, bind. rewrite render_returns. cbn; auto.
  - cbn; auto.
  - unfold_methods. destruct (_map i); cbn; auto.
  - discriminate.
  - cbn; auto.
  - unfold_methods.
    destruct (strict_eq (statusCode evt) (JNum UNAUTHORIZED_ERROR_CODE)
              && negb (accessTokenInvalid (state i))); cbn; auto.
Qed.

(** X13: the component never writes its props and changes its stored
    size only in the size observer's callback: over any run without a
    store of new props by React the props are the same object at the end,
    and over any run without a size report the stored width and height are
    unchanged. *)
Theorem props_and_size_have_one_writer
        (i : Instance) (w : World) (ops : list Op) :
  let t := run X ops i w in
  (forallb not_store ops = true -> props (final_inst t) = props i)
  /\ (forallb not_resize ops = true ->
      st_width (state (final_inst t)) = st_width (state i)
      /\ st_height (state (final_inst t)) = st_height (state i)).
Proof.
  intros t. split.
  - intros L.
    apply (run_invariant (fun j _ => props j = props i) not_store).
    + intros op j w' N P. rewrite (step_keeps_props op j w' N). exact P.
    + exact L.
    + reflexivity.
  - intros L.
    apply (run_invariant
             (fun j _ => st_width (state j) = st_width (state i)
                         /\ st_height (state j) = st_height (state i))
             not_resize).
    + intros op j w' N [P1 P2].
      destruct (step_keeps_size op j w' N) as [S1 S2].
      rewrite S1, S2. auto.
    + exact L.
    + auto.
Qed.

End Properties.

(** * The properties on concrete components *)

(** C1, as the claim has it, fails: after a regular mount and unmount a
    late [queryRenderedFeatures] raises a [TypeError] (and [getMap] returns
    null). *)
Lemma late_query_after_unmount_throws :
  returned unmounted = true
  /\ getMap (inst_of unmounted) (world_of unmounted)
     = Ok Null (inst_of unmounted) (world_of unmounted)
  /\ returned (queryRenderedFeatures browser (JNum 0) JUndefined
                 (inst_of unmounted) (world_of unmounted)) = false
  /\ queryRenderedFeatures browser (JNum 0) JUndefined
       (inst_of unmounted) (world_of unmounted)
     = Throw (TypeError "queryRenderedFeatures")
             (inst_of unmounted) (world_of unmounted).
Proof. repeat split; vm_compute; reflexivity. Qed.

Lemma unmount_finalizes_once_and_detaches_witness :
  own_componentWillUnmount (inst_of mounted) = Proto
  /\ _mapbox (inst_of mounted) = Ref (MapboxObj 0)
  /\ issued (world_of mounted)
       (world_of (call_componentWillUnmount (inst_of mounted)
                                            (world_of mounted)))
     = [MapboxFinalize (MapboxObj 0)]
  /\ engine (final_world
               (run browser late_arrivals
                  (inst_of (call_componentWillUnmount (inst_of mounted)
                                                      (world_of mounted)))
                  (world_of (call_componentWillUnmount (inst_of mounted)
                                                       (world_of mounted)))))
     = engine (world_of (call_componentWillUnmount (inst_of mounted)
                                                   (world_of mounted))).
Proof.
  split; [reflexivity|]. split; [reflexivity|].
  destruct (unmount_finalizes_once_and_detaches browser (inst_of mounted)
              (world_of mounted) (MapboxObj 0) eq_refl eq_refl)
    as (_ & A & _ & _ & L).
  split; [exact A|].
  destruct (L late_arrivals eq_refl) as (E & _). exact E.
Defined.

Lemma token_flag_is_monotone_witness :
  accessTokenInvalid (state (inst_of warned)) = true
  /\ console (final_world
                (run browser
                   [CallMapboxMapError unauthorized; CallOnResize 640 480;
                    CallMapboxMapError top_level_401; CallRender]
                   (inst_of warned) (world_of warned)))
     = console (world_of warned).
Proof.
  split; [reflexivity|].
  destruct (token_flag_is_monotone browser
              [CallMapboxMapError unauthorized; CallOnResize 640 480;
               CallMapboxMapError top_level_401; CallRender]
              (inst_of warned) (world_of warned) eq_refl) as (_ & C & _).
  exact C.
Defined.

Lemma unchanged_style_is_not_swapped_witness :
  strict_eq (mapStyle (with_geography light_props (JNum 11) (JNum 51)
                                      (JNum 9) (JNum 0) (JNum 0)))
            (mapStyle (props (inst_of mounted))) = true
  /\ filter is_setStyle
       (issued (world_of mounted)
          (world_of (react_update browser
                       (with_geography light_props (JNum 11) (JNum 51)
                                       (JNum 9) (JNum 0) (JNum 0))
                       (inst_of mounted) (world_of mounted))))
     = [].
Proof.
  split; [reflexivity|].
  destruct (unchanged_style_is_not_swapped browser (inst_of mounted)
              (world_of mounted)
              (with_geography light_props (JNum 11) (JNum 51) (JNum 9)
                              (JNum 0) (JNum 0))) as (H & _).
  destruct (H eq_refl) as (_ & U). exact U.
Defined.

Lemma resize_exactly_on_size_change_witness :
  own_componentDidUpdate (inst_of measured) = Proto
  /\ _map (inst_of measured) = Ref (MapObj 0)
  /\ issued (world_of measured)
       (world_of (call_componentDidUpdate light_props (mkState 0 0 false)
                    (inst_of measured) (world_of measured)))
     = [MapResize (MapObj 0)]
  /\ issued (world_of measured)
       (world_of (call_componentDidUpdate light_props (mkState 640 480 false)
                    (inst_of measured) (world_of measured)))
     = [].
Proof.
  split; [reflexivity|]. split; [reflexivity|]. split.
  - destruct (resize_exactly_on_size_change (inst_of measured)
                (world_of measured) light_props (mkState 0 0 false))
      as (_ & C).
    destruct (C (MapObj 0) eq_refl eq_refl) as (_ & R & _).
    apply R. left. discriminate.
  - destruct (resize_exactly_on_size_change (inst_of measured)
                (world_of measured) light_props (mkState 640 480 false))
      as (U & _).
    apply U; reflexivity.
Defined.

(** C5, the code at the failing input: the update brings a new style
    together with [preventStyleDiffing: true], and the swap is issued with
    [diff: true], the negation of the previous props' flag. *)
Theorem style_swap_uses_previous_diffing_flag :
  preventStyleDiffing (props (inst_of mounted)) = JBool false
  /\ preventStyleDiffing dark_props_no_diff = JBool true
  /\ issued (world_of mounted)
       (world_of (react_update browser dark_props_no_diff
                    (inst_of mounted) (world_of mounted)))
     = [MapboxSetProps (MapboxObj 0) dark_props_no_diff;
        MapSetStyle (MapObj 0) (JStr "mapbox://styles/mapbox/dark-v8") true].
Proof. repeat split; vm_compute; reflexivity. Qed.

Lemma first_unauthorized_error_warns_once_witness :
  strict_eq (statusCode unauthorized) (JNum UNAUTHORIZED_ERROR_CODE) = true
  /\ accessTokenInvalid (state (inst_of mounted)) = false
  /\ console (world_of warned) = [NO_TOKEN_WARNING]
  /\ accessTokenInvalid (state (inst_of warned)) = true
  /\ option_map (fun overlay => (tag_of overlay, attr overlay "id"))
       (child_with_key
          (rendered
             (render browser
                (inst_of (set_props light_props (inst_of warned)
                                    (world_of warned)))
                (world_of warned)))
          "warning")
     = Some (Some (HostTag "div"), Some (AVal (JStr "no-token-warning"))).
Proof.
  split; [reflexivity|]. split; [reflexivity|].
  destruct (first_unauthorized_error_warns_once browser unauthorized
              (inst_of mounted) (world_of mounted) eq_refl eq_refl)
    as (_ & C & _ & A & O & _).
  split; [exact C|]. split; [exact A|].
  destruct (O light_props (world_of warned)) as (_ & W).
  exact (eq_trans
           (f_equal
              (option_map (fun overlay => (tag_of overlay, attr overlay "id")))
              W)
           eq_refl).
Defined.

Lemma hidden_map_stays_mounted_witness :
  _map (inst_of mounted_hidden) = Ref (MapObj 0)
  /\ (exists surface,
        child_with_key
          (rendered (render browser (inst_of mounted_hidden)
                            (world_of mounted_hidden)))
          "map-mapbox" = Some surface
        /\ tag_of surface = Some (HostTag "div")
        /\ obj_get (style_of surface) "visibility" = JStr "hidden")
  /\ (render browser;; getMap) (inst_of mounted_hidden)
                               (world_of mounted_hidden)
     = Ok (Ref (MapObj 0)) (inst_of mounted_hidden) (world_of mounted_hidden).
Proof.
  split; [reflexivity|].
  destruct (hidden_map_stays_mounted browser (inst_of mounted_hidden)
              (world_of mounted_hidden) (MapObj 0) (JNum 0) JUndefined
              eq_refl)
    as (_ & (surface_style & C & _ & _ & H & _) & _ & _ & G & _).
  split; [|exact G].
  eexists. split; [exact C|]. split; [reflexivity|].
  apply H. right. reflexivity.
Defined.

Lemma unsupported_environment_is_inert_witness :
  supported headless = false
  /\ mount_report_returns headless light_props (Some (640, 480)%Z) = true
  /\ returned (react_mount headless dom_node (Some (640, 480)%Z)
                 (constructor headless light_props) empty_world) = true
  /\ engine (world_of (react_mount headless dom_node (Some (640, 480)%Z)
                         (constructor headless light_props) empty_world))
     = []
  /\ engine (final_world (run headless headless_life
                            (constructor headless light_props) empty_world))
     = []
  /\ option_map children_of
       (child_with_key
          (rendered
             (render headless
                (final_inst (run headless headless_life
                               (constructor headless light_props)
                               empty_world))
                empty_world))
          "map-overlays")
     = Some [EText "marker"].
Proof.
  split; [reflexivity|]. split; [reflexivity|].
  destruct (unsupported_environment_is_inert headless light_props dom_node
              (Some (640, 480)%Z) empty_world headless_life eq_refl)
    as ((E & R) & Q & _ & _ & _ & O).
  split; [exact (R eq_refl)|]. split; [exact E|]. split; [exact Q|].
  destruct (O empty_world) as (_ & _ & _ & C).
  rewrite C. reflexivity.
Defined.

Lemma status_code_prefers_nested_error_witness :
  (truthy (get_prop (evt_error top_level_401) "status") = false
   /\ evt_status top_level_401 = JNum 401
   /\ console (world_of (_mapboxMapError top_level_401 (inst_of mounted)
                                         (world_of mounted)))
      = console (world_of mounted) ++ [NO_TOKEN_WARNING])
  /\ (truthy (get_prop (evt_error nested_500) "status") = true
      /\ evt_status nested_500 = JNum 401
      /\ _mapboxMapError nested_500 (inst_of mounted) (world_of mounted)
         = Ok tt (inst_of mounted) (world_of mounted)).
Proof.
  split.
  - split; [reflexivity|]. split; [reflexivity|].
    destruct (status_code_prefers_nested_error top_level_401) as (_ & H & _).
    destruct (H (inst_of mounted) (world_of mounted) eq_refl eq_refl eq_refl)
      as (C & _).
    exact C.
  - split; [reflexivity|]. split; [reflexivity|].
    destruct (status_code_prefers_nested_error nested_500) as (_ & _ & H).
    exact (H (inst_of mounted) (world_of mounted) eq_refl eq_refl eq_refl
             eq_refl).
Defined.

Lemma constraints_read_viewState_first_witness :
  truthy (viewState constrained_props) = true
  /\ render_visible browser
       (with_geography constrained_props (JNum 0) (JNum 0) (JNum 1)
                       (JNum 90) (JNum 45))
     = render_visible browser constrained_props.
Proof.
  split; [reflexivity|].
  destruct (constraints_read_viewState_first browser constrained_props)
    as (_ & _ & H).
  destruct (H eq_refl (JNum 0) (JNum 0) (JNum 1) (JNum 90) (JNum 45)
              (inst_of mounted_hidden) eq_refl) as (V & _).
  exact V.
Defined.

(** * The further properties on concrete components *)

Lemma mount_constructs_one_engine_witness :
  supported browser = true
  /\ mount_report_returns browser light_props (Some (640, 480)%Z) = true
  /\ issued empty_world (world_of mounted_laid_out)
     = [MapboxNew (MapboxObj 0)
          (mkConfig light_props (Some true) dom_node H_mapboxMapError
                    (JStr "mapbox://styles/mapbox/light-v8"));
        MapResize (MapObj 0)]
  /\ state (inst_of mounted_laid_out) = mkState 640 480 false
  /\ issued empty_world (world_of mounted)
     = [MapboxNew (MapboxObj 0)
          (mkConfig light_props (Some true) dom_node H_mapboxMapError
                    (JStr "mapbox://styles/mapbox/light-v8"))].
Proof.
  split; [reflexivity|]. split; [reflexivity|].
  destruct (mount_constructs_one_engine browser light_props dom_node
              (Some (640, 480)%Z) empty_world eq_refl eq_refl)
    as (_ & C & _ & _ & St & _).
  destruct (mount_constructs_one_engine browser light_props dom_node
              None empty_world eq_refl eq_refl) as (_ & C0 & _).
  split; [exact C|]. split; [exact St | exact C0].
Defined.

Lemma mount_then_unmount_pairs_finalize_witness :
  supported browser = true
  /\ mount_report_returns browser light_props (Some (640, 480)%Z) = true
  /\ _mapbox (inst_of ((react_mount browser dom_node (Some (640, 480)%Z);;
                        react_unmount)
                         (constructor browser light_props) empty_world))
     = Null
  /\ List.length
       (issued empty_world
          (world_of ((react_mount browser dom_node (Some (640, 480)%Z);;
                      react_unmount)
                       (constructor browser light_props) empty_world)))
     = 3%nat.
Proof.
  split; [reflexivity|]. split; [reflexivity|].
  destruct (mount_then_unmount_pairs_finalize browser light_props dom_node
              (Some (640, 480)%Z) empty_world eq_refl eq_refl)
    as (_ & (cfg & C) & B & _).
  split; [exact B|]. rewrite C. reflexivity.
Defined.

Lemma every_update_forwards_props_witness :
  own_componentWillReceiveProps (inst_of mounted) = Proto
  /\ _mapbox (inst_of mounted) = Ref (MapboxObj 0)
  /\ _map (inst_of mounted) = Ref (MapObj 0)
  /\ props (inst_of (react_update browser dark_props_no_diff
                       (inst_of mounted) (world_of mounted)))
     = dark_props_no_diff
  /\ returned (react_update browser dark_props_no_diff
                 (inst_of mounted) (world_of mounted)) = true.
Proof.
  split; [reflexivity|]. split; [reflexivity|]. split; [reflexivity|].
  destruct (every_update_forwards_props browser (inst_of mounted)
              (world_of mounted) dark_props_no_diff (MapboxObj 0) (MapObj 0)
              eq_refl eq_refl eq_refl) as (R & _ & P & _).
  split; [exact P | exact R].
Defined.

Lemma other_errors_are_ignored_witness :
  statusCode string_401 <> JNum 401
  /\ _mapboxMapError string_401 (inst_of mounted) (world_of mounted)
     = Ok tt (inst_of mounted) (world_of mounted).
Proof.
  assert (N : statusCode string_401 <> JNum 401) by (cbn; discriminate).
  split; [exact N|].
  exact (other_errors_are_ignored string_401 (inst_of mounted)
           (world_of mounted) N).
Defined.

Lemma delivered_size_report_witness :
  own_componentDidUpdate (inst_of mounted) = Proto
  /\ _map (inst_of mounted) = Ref (MapObj 0)
  /\ report_returns browser (props (inst_of mounted))
                    (state (inst_of mounted)) 640 480 = true
  /\ issued (world_of mounted)
       (world_of (react_deliver browser true (_onResize browser 640 480)
                    (inst_of mounted) (world_of mounted)))
     = [MapResize (MapObj 0)]
  /\ state (inst_of (react_deliver browser true (_onResize browser 640 480)
                       (inst_of mounted) (world_of mounted)))
     = mkState 640 480 false
  /\ inst_of (react_deliver browser false (_onResize browser 640 480)
                (inst_of unmounted) (world_of unmounted))
     = inst_of unmounted.
Proof.
  split; [reflexivity|]. split; [reflexivity|]. split; [reflexivity|].
  destruct (delivered_size_report browser (inst_of mounted)
              (world_of mounted) 640 480) as (H & _).
  destruct (H (MapObj 0) eq_refl eq_refl eq_refl) as (_ & St & C & _).
  destruct (delivered_size_report browser (inst_of unmounted)
              (world_of unmounted) 640 480) as (_ & L & _).
  split; [exact C|]. split; [exact St | exact L].
Defined.

Lemma failed_view_state_drops_measurement_witness :
  truthy (onViewportChange (props (inst_of mounted_notifying))) = true
  /\ _onResize fussy_browser 640 480 (inst_of mounted_notifying)
               (world_of mounted_notifying)
     = Throw (Thrown (JStr "invalid size")) (inst_of mounted_notifying)
             (world_of mounted_notifying).
Proof.
  split; [reflexivity|].
  apply (failed_view_state_drops_measurement fussy_browser
           (inst_of mounted_notifying) (world_of mounted_notifying) 640 480
           (Thrown (JStr "invalid size")) eq_refl).
  left. reflexivity.
Defined.

Lemma nothing_reaches_engine_before_mount_witness :
  forallb not_mount early_arrivals = true
  /\ engine (final_world (run browser early_arrivals
                            (constructor browser light_props) empty_world))
     = [].
Proof.
  split; [reflexivity|].
  destruct (nothing_reaches_engine_before_mount browser light_props
              empty_world early_arrivals eq_refl) as (E & _).
  exact E.
Defined.

Lemma mounted_component_never_raises_witness :
  attached (inst_of mounted) = true
  /\ reports_return browser (props (inst_of mounted))
  /\ forallb not_unmount mounted_life = true
  /\ Forall (op_props_ok browser) mounted_life
  /\ forallb stays_mounted mounted_events = true
  /\ Forall (event_props_ok browser) mounted_events
  /\ raised (run browser mounted_life (inst_of mounted) (world_of mounted))
     = []
  /\ raised (react_run browser mounted_events true (inst_of mounted)
                       (world_of mounted))
     = [].
Proof.
  assert (T : reports_return browser (props (inst_of mounted)))
    by (intros s a b; reflexivity).
  assert (G : Forall (op_props_ok browser) mounted_life)
    by (repeat constructor; intros s a b; reflexivity).
  assert (G' : Forall (event_props_ok browser) mounted_events)
    by (repeat constructor; intros s a b; reflexivity).
  split; [reflexivity|]. split; [exact T|]. split; [reflexivity|].
  split; [exact G|]. split; [reflexivity|]. split; [exact G'|].
  destruct (mounted_component_never_raises browser (inst_of mounted)
              (world_of mounted) mounted_life mounted_events eq_refl T
              eq_refl G eq_refl G') as ((R & _) & (R' & _)).
  split; [exact R | exact R'].
Defined.

Lemma console_warns_once_while_mounted_witness :
  accessTokenInvalid (state (inst_of mounted)) = false
  /\ forallb stays_mounted mounted_events = true
  /\ console (final_world (react_run browser mounted_events true
                             (inst_of mounted) (world_of mounted)))
     = [NO_TOKEN_WARNING]
  /\ console (final_world (react_run browser late_events false
                             (inst_of unmounted) (world_of unmounted)))
     = [NO_TOKEN_WARNING; NO_TOKEN_WARNING].
Proof.
  split; [reflexivity|]. split; [reflexivity|].
  destruct (console_warns_once_while_mounted browser (inst_of mounted)
              (world_of mounted) mounted_events []) as (M & _).
  destruct (console_warns_once_while_mounted browser (inst_of unmounted)
              (world_of unmounted) [] late_events) as (_ & _ & L).
  split.
  - rewrite (M eq_refl eq_refl). reflexivity.
  - rewrite L. reflexivity.
Defined.

Lemma engine_lifetime_is_respected_witness :
  engine empty_world = []
  /\ disciplined
       (engine (final_world (run browser browser_life
                               (constructor browser light_props)
                               empty_world)))
     = true.
Proof.
  split; [reflexivity|].
  destruct (engine_lifetime_is_respected browser light_props empty_world
              browser_life eq_refl) as (D & _).
  exact D.
Defined.

Lemma container_keeps_caller_style_witness :
  NoDup (keys (style styled_props))
  /\ obj_get (mapContainerStyle styled_props) "border" = JStr "1px solid"
  /\ obj_get (mapContainerStyle styled_props) "position" = JStr "absolute".
Proof.
  assert (D : NoDup (keys (style styled_props))).
  { cbn. repeat constructor; cbn; intuition discriminate. }
  split; [exact D|].
  destruct (container_keeps_caller_style styled_props D) as (K & P & _).
  split.
  - rewrite K by discriminate. reflexivity.
  - rewrite P by reflexivity. reflexivity.
Defined.

Lemma props_and_size_have_one_writer_witness :
  forallb not_store early_arrivals = true
  /\ props (final_inst (run browser early_arrivals
                          (constructor browser light_props) empty_world))
     = light_props.
Proof.
  split; [reflexivity|].
  destruct (props_and_size_have_one_writer browser
              (constructor browser light_props) empty_world early_arrivals)
    as (P & _).
  exact (P eq_refl).
Defined.
